(** * uzbl event manager, plugin [keycmd.py]: key command tracking

    A shallow embedding of [examples/data/uzbl/plugins/keycmd.py] and the
    properties of its handlers.

    - Python [str] is [string]; indices and the cursor are [Z], because the
      code computes with negative values ([k.cursor - 1], negative indexing).
    - The module-level dictionary [UZBLS] is a [gmap] from instance
      identifiers to Keylets; a configuration dictionary is a
      [gmap string string].
    - A handler mutates the Keylet stored in [UZBLS], may assign into the
      configuration dictionary, and talks to the event bus ([uzbl.event],
      [uzbl.set]).  Handlers are therefore computations in a state monad
      over a [World]; a Python exception is an outcome of the computation
      that keeps every mutation made before it was raised.
    - The bus is not part of the plugin.  What is sent to it is recorded in
      a trace; the listeners that [uzbl.event] runs before it returns are a
      parameter of the handlers, since they may change the Keylet and the
      configuration under the dispatcher's feet.
    - [Keylet.match], [get_regex] and [Keylet.__repr__] are used by no
      handler and are left out. *)

From Stdlib Require Import ZArith String Ascii List Bool Lia.
From Stdlib Require Import Sorted Permutation OrderedTypeEx.
From stdpp Require Import base gmap strings.

Local Open Scope string_scope.
Local Open Scope Z_scope.

(** ** Python string primitives used by the plugin *)

Module PyStr.

Definition len (s : string) : Z := Z.of_nat (String.length s).

(** Truth value of a string: [if s] / [not s]. *)
Definition truthy (s : string) : bool :=
  match s with EmptyString => false | String _ _ => true end.

Fixpoint take (n : nat) (s : string) : string :=
  match n, s with
  | S n', String c s' => String c (take n' s')
  | _, _ => EmptyString
  end.

Fixpoint drop (n : nat) (s : string) : string :=
  match n, s with
  | S n', String _ s' => drop n' s'
  | _, _ => s
  end.

(** A slice bound [i] of a sequence of length [n]: negative bounds count
    from the end, and every bound is clipped into [0 .. n]. *)
Definition bound (n i : Z) : nat :=
  Z.to_nat (if i <? 0 then Z.max 0 (n + i) else Z.min i n).

(** [s[:i]] *)
Definition slice_to (s : string) (i : Z) : string := take (bound (len s) i) s.

(** [s[i:]] *)
Definition slice_from (s : string) (i : Z) : string := drop (bound (len s) i) s.

(** [s[i]]: [None] stands for the [IndexError] of an index outside
    [-len s .. len s - 1]. *)
Definition getitem (s : string) (i : Z) : option string :=
  let j := if i <? 0 then len s + i else i in
  if (0 <=? j) && (j <? len s)
  then Some (take 1 (drop (Z.to_nat j) s))
  else None.

(** [s.startswith(p)] *)
Definition startswith (p s : string) : bool := String.prefix p s.

(** [s.endswith(p)] *)
Definition endswith (p s : string) : bool :=
  (String.length p <=? String.length s)%nat
  && String.eqb (drop (String.length s - String.length p) s) p.

(** [sub in s] *)
Fixpoint contains (sub s : string) : bool :=
  String.prefix sub s
  || match s with
     | EmptyString => false
     | String _ s' => contains sub s'
     end.

(** [c in chars] for a single character [c]. *)
Fixpoint mem (c : ascii) (chars : string) : bool :=
  match chars with
  | EmptyString => false
  | String d r => Ascii.eqb c d || mem c r
  end.

(** [s.replace(c, new)] where [c] is a one-character string. *)
Fixpoint replace (c : ascii) (new s : string) : string :=
  match s with
  | EmptyString => EmptyString
  | String d r => (if Ascii.eqb d c then new else String d EmptyString) +:+ replace c new r
  end.

(** [s.lstrip(chars)] and [s.rstrip(chars)]: [chars] is a set of characters. *)
Fixpoint lstrip (chars s : string) : string :=
  match s with
  | String c r => if mem c chars then lstrip chars r else s
  | EmptyString => EmptyString
  end.

Fixpoint rstrip (chars s : string) : string :=
  match s with
  | EmptyString => EmptyString
  | String c r =>
      match rstrip chars r with
      | EmptyString => if mem c chars then EmptyString else String c EmptyString
      | r' => String c r'
      end
  end.

(** The rightmost occurrence of [sep] in [s], as the text before it and the
    text after it. *)
Fixpoint rfind_cut (sep s : string) : option (string * string) :=
  match s with
  | EmptyString => None
  | String c r =>
      match rfind_cut sep r with
      | Some (a, b) => Some (String c a, b)
      | None =>
          if String.prefix sep s
          then Some (EmptyString, drop (String.length sep) s)
          else None
      end
  end.

(** [s.rsplit(sep, 1)] for a non-empty [sep]. *)
Definition rsplit1 (sep s : string) : list string :=
  match rfind_cut sep s with
  | Some (a, b) => [a; b]
  | None => [s]
  end.

(** The characters [str.strip()] removes: those for which [str.isspace]
    holds, here the ones with codes below 256. *)
Definition whitespace : string :=
  String (ascii_of_nat 9) (String (ascii_of_nat 10) (String (ascii_of_nat 11)
  (String (ascii_of_nat 12) (String (ascii_of_nat 13) (String (ascii_of_nat 28)
  (String (ascii_of_nat 29) (String (ascii_of_nat 30) (String (ascii_of_nat 31)
  (String (ascii_of_nat 32) (String (ascii_of_nat 133) (String (ascii_of_nat 160)
  EmptyString))))))))))).

(** [s.strip()] *)
Definition strip (s : string) : string := rstrip whitespace (lstrip whitespace s).

(** The characters [int] itself skips around a number: the separators with
    codes 28 to 31 are not among them. *)
Definition int_whitespace : string :=
  String (ascii_of_nat 9) (String (ascii_of_nat 10) (String (ascii_of_nat 11)
  (String (ascii_of_nat 12) (String (ascii_of_nat 13) (String (ascii_of_nat 32)
  (String (ascii_of_nat 133) (String (ascii_of_nat 160) EmptyString))))))).

Definition digit (c : ascii) : option Z :=
  let n := Z.of_N (N_of_ascii c) in
  if (48 <=? n) && (n <=? 57) then Some (n - 48) else None.

(** The digits of a literal, from a digit on: single underscores may stand
    between two digits.  The result is the value and the number of
    digits. *)
Fixpoint digits (acc count : Z) (s : string) : option (Z * Z) :=
  match s with
  | EmptyString => Some (acc, count)
  | String c r =>
      if Ascii.eqb c "_" then
        match r with
        | EmptyString => None
        | String d _ =>
            match digit d with
            | Some _ => digits acc count r
            | None => None
            end
        end
      else
        match digit c with
        | Some d => digits (10 * acc + d) (count + 1) r
        | None => None
        end
  end.

(** The interpreter's default limit on the digits of a decimal literal
    that [int] converts. *)
Definition max_str_digits : Z := 4300.

(** A literal without sign: it starts with a digit and has no more digits
    than the limit allows. *)
Definition unsigned (s : string) : option Z :=
  match s with
  | EmptyString => None
  | String c _ =>
      match digit c with
      | None => None
      | Some _ =>
          match digits 0 0 s with
          | Some (v, count) => if max_str_digits <? count then None else Some v
          | None => None
          end
      end
  end.

(** [int(s)] on a string: surrounding whitespace, an optional sign, then
    decimal digits with single underscores between them.  [None] stands
    for the [ValueError] that [int] raises on anything else. *)
Definition int (s : string) : option Z :=
  match rstrip int_whitespace (lstrip int_whitespace s) with
  | EmptyString => None
  | String c r =>
      if Ascii.eqb c "-" then option_map Z.opp (unsigned r)
      else if Ascii.eqb c "+" then unsigned r
      else unsigned (String c r)
  end.

(** [l.sort()] on a list of strings: insertion into an ascending list,
    comparing strings character by character on their codes. *)
Fixpoint insert_sorted (x : string) (l : list string) : list string :=
  match l with
  | [] => [x]
  | y :: l' => if String.leb x y then x :: l else y :: insert_sorted x l'
  end.

Definition sort (l : list string) : list string :=
  fold_right insert_sorted [] l.

(** [x in l] and [l.remove(x)] on a list of strings. *)
Definition inb (x : string) (l : list string) : bool :=
  existsb (String.eqb x) l.

Fixpoint remove (x : string) (l : list string) : list string :=
  match l with
  | [] => []
  | y :: l' => if String.eqb x y then l' else y :: remove x l'
  end.

(** [''.join(l)] *)
Definition join (l : list string) : string :=
  fold_right String.append EmptyString l.

End PyStr.

(** ** [escape] *)

Definition escape (str : string) : string :=
  if negb (PyStr.truthy str) then ""
  else
    let str :=
      fold_left
        (fun str char =>
           if PyStr.contains (String char "") str
           then PyStr.replace char (String "\" (String char "")) str
           else str)
        ["\"%char; "@"%char] str in
    "@[" +:+ str +:+ "]@".

(** ** The Keylet *)

Record Keylet := mkKeylet {
  cmd : string;
  cursor : Z;
  held : list string;
  _to_string : option string;   (* to_string() string building cache *)
  modcmd : bool
}.

(** [Keylet.__init__] *)
Definition Keylet_init : Keylet :=
  {| cmd := ""; cursor := 0; held := []; _to_string := None; modcmd := false |}.

(** Attribute assignments [k.cmd = v], [k.cursor = v], ... *)
Definition set_cmd (v : string) (k : Keylet) : Keylet :=
  {| cmd := v; cursor := cursor k; held := held k;
     _to_string := _to_string k; modcmd := modcmd k |}.
Definition set_cursor (v : Z) (k : Keylet) : Keylet :=
  {| cmd := cmd k; cursor := v; held := held k;
     _to_string := _to_string k; modcmd := modcmd k |}.
Definition set_held (v : list string) (k : Keylet) : Keylet :=
  {| cmd := cmd k; cursor := cursor k; held := v;
     _to_string := _to_string k; modcmd := modcmd k |}.
Definition set_cache (v : option string) (k : Keylet) : Keylet :=
  {| cmd := cmd k; cursor := cursor k; held := held k;
     _to_string := v; modcmd := modcmd k |}.
Definition set_modcmd (v : bool) (k : Keylet) : Keylet :=
  {| cmd := cmd k; cursor := cursor k; held := held k;
     _to_string := _to_string k; modcmd := v |}.

(** [Keylet.mod_held]: true if any held key name is not one character. *)
Definition mod_held (k : Keylet) : bool :=
  existsb (fun x => negb (String.length x =? 1)%nat) (held k).

(** [Keylet.key_cmd] *)
Definition key_cmd (k : Keylet) : string := cmd k.

(** [Keylet.mod_cmd] *)
Definition mod_cmd (k : Keylet) : string :=
  PyStr.join (map (fun key => "<" +:+ key +:+ ">") (held k)).

(** The string [Keylet.to_string] returns: the cached one if there is a
    cache, the serialization of the fields otherwise. *)
Definition serialized (k : Keylet) : string :=
  match _to_string k with
  | Some s => s
  | None => mod_cmd k +:+ key_cmd k
  end.

(** ** [make_simple] *)

Definition _SIMPLEKEYS : gmap string string :=
  list_to_map [("Control", "Ctrl"); ("ISO_Left_Tab", "Shift-Tab"); ("space", "Space")].

Definition make_simple (key : string) : string :=
  let key :=
    if PyStr.endswith "_L" key || PyStr.endswith "_R" key
    then PyStr.slice_to key (-2) else key in
  match _SIMPLEKEYS !! key with
  | Some simple => simple
  | None => key
  end.

(** [if len(key) > 1: key = make_simple(key)], the first thing both key
    handlers do with the raw key name. *)
Definition simplified (key : string) : string :=
  if 1 <? PyStr.len key then make_simple key else key.

(** [KEYCMD_FORMAT % (a, b, c)] *)
Definition KEYCMD_FORMAT (a b c : string) : string :=
  a +:+ "<span @cursor_style>" +:+ b +:+ "</span>" +:+ c.

(** ** The world a handler runs in *)

(** What a handler sends to the event bus: [uzbl.event(name)] or
    [uzbl.event(name, k)] with the Keylet as it is when the event is
    raised, and [uzbl.set(key, value)]. *)
Inductive effect :=
  | Event (name : string) (payload : option Keylet)
  | SetVar (key value : string).

(** [UZBLS] is the module-level registry.  [config] and [trace] belong to
    the uzbl instance whose event is being handled: its configuration
    dictionary and everything sent to its bus so far, oldest first. *)
Record World := mkWorld {
  UZBLS : gmap positive Keylet;
  config : gmap string string;
  trace : list effect
}.

Inductive exn := ValueError | IndexError | AssertionError.

Inductive outcome (A : Type) :=
  | Returns (a : A)
  | Raises (e : exn).
Arguments Returns {A} a.
Arguments Raises {A} e.

Definition M (A : Type) : Type := World -> World * outcome A.

Definition ret {A} (a : A) : M A := fun w => (w, Returns a).

Definition raise {A} (e : exn) : M A := fun w => (w, Raises e).

Definition bind {A B} (m : M A) (f : A -> M B) : M B :=
  fun w =>
    match m w with
    | (w', Returns a) => f a w'
    | (w', Raises e) => (w', Raises e)
    end.

Notation "x <- c1 ;; c2" := (bind c1 (fun x => c2))
  (at level 100, c1 at next level, right associativity).
Notation "c1 ;; c2" := (bind c1 (fun _ => c2))
  (at level 100, right associativity).

(** [if b: body] with nothing to do otherwise. *)
Definition when (b : bool) (body : M unit) : M unit :=
  if b then body else ret tt.

(** Listeners connected to the bus run inside [uzbl.event], before it
    returns, and may change the Keylet and the configuration. *)
Definition listener : Type :=
  string -> Keylet -> gmap string string -> Keylet * gmap string string.

(** A bus on which no listener touches the Keylet or the configuration. *)
Definition quiet : listener := fun _ k c => (k, c).

(** [key in config and config[key] != '1'] *)
Definition switched_off (config : gmap string string) (key : string) : bool :=
  match config !! key with
  | Some v => negb (String.eqb v "1")
  | None => false
  end.

Section Handlers.

Variable uzbl : positive.
Variable react : listener.

(** The object [UZBLS[uzbl]]; a Keylet that is not registered yet reads as
    the one [get_keylet] is about to create. *)
Definition this (w : World) : Keylet :=
  default Keylet_init (UZBLS w !! uzbl).

Definition upd (f : Keylet -> Keylet) (w : World) : World :=
  {| UZBLS := <[uzbl := f (this w)]> (UZBLS w); config := config w; trace := trace w |}.

Definition assign (key value : string) (w : World) : World :=
  {| UZBLS := UZBLS w; config := <[key := value]> (config w); trace := trace w |}.

Definition emit (e : effect) (w : World) : World :=
  {| UZBLS := UZBLS w; config := config w; trace := trace w ++ [e] |}.

Definition reconf (c : gmap string string) (w : World) : World :=
  {| UZBLS := UZBLS w; config := c; trace := trace w |}.

(** Reading [k.f] and assigning to attributes of [k], where [k] is the
    reference [get_keylet] returned: both go to the object in [UZBLS]. *)
Definition rd {A} (f : Keylet -> A) : M A := fun w => (w, Returns (f (this w))).
Definition wr (f : Keylet -> Keylet) : M unit := fun w => (upd f w, Returns tt).

(** [uzbl.get_config()] hands out the dictionary itself, so a later read
    through the handler's [config] variable sees the current contents. *)
Definition get_config : M (gmap string string) := fun w => (w, Returns (config w)).

(** [config[key] = value] *)
Definition config_assign (key value : string) : M unit :=
  fun w => (assign key value w, Returns tt).

(** [uzbl.event(name)] and [uzbl.event(name, k)] *)
Definition uzbl_event (name : string) (with_keylet : bool) : M unit :=
  fun w =>
    let k := this w in
    let w1 := emit (Event name (if with_keylet then Some k else None)) w in
    let '(k', c') := react name k (config w) in
    (reconf c' (upd (fun _ => k') w1), Returns tt).

(** [uzbl.set(key, value)] *)
Definition uzbl_set (key value : string) : M unit :=
  fun w => (emit (SetVar key value) w, Returns tt).

(** [Keylet.to_string] *)
Definition to_string : M string :=
  cached <- rd _to_string ;;
  match cached with
  | Some s => ret s
  | None =>
      m <- rd mod_cmd ;;
      c <- rd key_cmd ;;
      wr (set_cache (Some (m +:+ c))) ;;
      ret (m +:+ c)
  end.

Definition add_instance : M unit :=
  fun w => (upd (fun _ => Keylet_init) w, Returns tt).

Definition del_instance : M unit :=
  fun w => ({| UZBLS := delete uzbl (UZBLS w);
               config := config w; trace := trace w |}, Returns tt).

Definition registered : M bool :=
  fun w => (w, Returns (bool_decide (is_Some (UZBLS w !! uzbl)))).

Definition get_keylet : M unit :=
  known <- registered ;;
  when (negb known) add_instance ;;
  wr (set_cache None).

Definition clear_keycmd : M unit :=
  get_keylet ;;
  wr (set_cmd "") ;;
  wr (set_cursor 0) ;;
  wr (set_cache None) ;;
  m <- rd mod_held ;;
  wr (set_modcmd m) ;;
  config <- get_config ;;
  when (match config !! "keycmd" with
        | None => true
        | Some v => negb (String.eqb v "")
        end)
    (config_assign "keycmd" "") ;;
  uzbl_event "KEYCMD_CLEAR" false.

Definition update_event (execute : bool) : M unit :=
  in_modcmd <- rd modcmd ;;
  if in_modcmd then
    keycmd <- to_string ;;
    when execute (uzbl_event "MODCMD_UPDATE" true) ;;
    now <- to_string ;;
    if negb (String.eqb keycmd now) then ret tt else
    config <- get_config ;;
    if switched_off config "modcmd_updates" then ret tt else
    uzbl_set "keycmd" (escape keycmd)
  else
    config <- get_config ;;
    if switched_off config "keycmd_events" then ret tt else
    keycmd <- rd cmd ;;
    when execute (uzbl_event "KEYCMD_UPDATE" true) ;;
    now <- rd cmd ;;
    if negb (String.eqb keycmd now) then ret tt else
    if negb (PyStr.truthy now) then uzbl_set "keycmd" "" else
    pos <- rd cursor ;;
    cursor <-
      (if pos <? PyStr.len now
       then match PyStr.getitem now pos with
            | Some c => ret c
            | None => raise IndexError
            end
       else ret " ") ;;
    uzbl_set "keycmd"
      (KEYCMD_FORMAT (escape (PyStr.slice_to now pos))
                     (escape cursor)
                     (escape (PyStr.slice_from now (pos + 1)))).

(** ** The handlers *)

Definition key_press (key : string) : M unit :=
  if PyStr.startswith "Shift_" key then ret tt else
  let key := simplified key in
  get_keylet ;;
  k_cmd <- rd cmd ;;
  k_modcmd <- rd modcmd ;;
  cmdmod <-
    (if PyStr.truthy k_cmd && negb k_modcmd && String.eqb key "Space" then
       pos <- rd cursor ;;
       wr (set_cmd (PyStr.slice_to k_cmd pos +:+ " " +:+ PyStr.slice_from k_cmd pos)) ;;
       wr (set_cursor (pos + 1)) ;;
       ret true
     else if 1 <? PyStr.len key then
       wr (set_modcmd true) ;;
       ret true
     else if negb k_modcmd then
       config <- get_config ;;
       if match config !! "keycmd_events" with
          | None => true
          | Some v => String.eqb v "1"
          end
       then
         if PyStr.len key =? 1 then
           pos <- rd cursor ;;
           wr (set_cmd (PyStr.slice_to k_cmd pos +:+ key +:+ PyStr.slice_from k_cmd pos)) ;;
           wr (set_cursor (pos + 1)) ;;
           ret true
         else ret false
       else if PyStr.truthy k_cmd then
         wr (set_cmd "") ;;
         wr (set_cursor 0) ;;
         ret true
       else ret false
     else ret false) ;;
  in_modcmd <- rd modcmd ;;
  cmdmod <-
    (if in_modcmd then
       h <- rd held ;;
       when (String.eqb key "Shift-Tab" && PyStr.inb "Tab" h)
         (wr (fun k => set_held (PyStr.remove "Tab" (held k)) k)) ;;
       h <- rd held ;;
       if negb (PyStr.inb key h) then
         wr (fun k => set_held (PyStr.sort (held k ++ [key])) k) ;;
         ret true
       else ret cmdmod
     else ret cmdmod) ;;
  when cmdmod (update_event true).

(** The key a release stands for: the release of one half of a compound
    key releases the compound that is held. *)
Definition released (key : string) (h : list string) : string :=
  if PyStr.inb key ["Shift"; "Tab"] && PyStr.inb "Shift-Tab" h then "Shift-Tab"
  else if PyStr.inb key ["Shift"; "Alt"] && PyStr.inb "Meta" h then "Meta"
  else key.

Definition key_release (key : string) : M unit :=
  let key := simplified key in
  get_keylet ;;
  h <- rd held ;;
  let key := released key h in
  cmdmod <-
    (if PyStr.inb key h then
       wr (fun k => set_held (PyStr.remove key (held k)) k) ;;
       m <- rd mod_held ;;
       wr (set_modcmd m) ;;
       in_modcmd <- rd modcmd ;;
       when in_modcmd (uzbl_event "MODCMD_EXEC" true) ;;
       ret true
     else ret false) ;;
  when cmdmod (update_event true).

Definition set_keycmd (keycmd : string) : M unit :=
  get_keylet ;;
  wr (set_modcmd false) ;;
  wr (set_cache None) ;;
  wr (set_cmd keycmd) ;;
  wr (set_cursor (PyStr.len keycmd)) ;;
  update_event false.

Definition keycmd_strip_word (sep : string) : M unit :=
  let sep := if PyStr.truthy sep then sep else " " in
  get_keylet ;;
  k_cmd <- rd cmd ;;
  if negb (PyStr.truthy k_cmd) then ret tt else
  pos <- rd cursor ;;
  let cmd_ := PyStr.slice_to k_cmd pos in
  let tail := PyStr.len k_cmd - pos in
  let tmp :=
    if PyStr.contains sep cmd_
    then PyStr.rsplit1 sep (PyStr.rstrip sep cmd_)
    else [""] in
  let tmp0 := hd "" tmp in
  wr (set_cmd (tmp0 +:+ (if (length tmp =? 2)%nat then sep else "")
                    +:+ PyStr.slice_from k_cmd pos)) ;;
  wr (set_cursor (PyStr.len tmp0 + (Z.of_nat (length tmp) - 1))) ;;
  new_cmd <- rd cmd ;;
  new_pos <- rd cursor ;;
  if negb (PyStr.len new_cmd - new_pos =? tail) then raise AssertionError else
  update_event false.

Definition keycmd_backspace : M unit :=
  get_keylet ;;
  k_cmd <- rd cmd ;;
  if negb (PyStr.truthy k_cmd) then ret tt else
  pos <- rd cursor ;;
  wr (set_cmd (PyStr.slice_to k_cmd (pos - 1) +:+ PyStr.slice_from k_cmd pos)) ;;
  wr (set_cursor (pos - 1)) ;;
  update_event false.

Definition keycmd_exec_current : M unit :=
  get_keylet ;;
  uzbl_event "KEYCMD_EXEC" true ;;
  clear_keycmd.

Definition set_cursor_pos (index : string) : M unit :=
  get_keylet ;;
  cursor <-
    (if String.eqb index "-" then
       pos <- rd cursor ;; ret (pos - 1)
     else if String.eqb index "+" then
       pos <- rd cursor ;; ret (pos + 1)
     else
       match PyStr.int (PyStr.strip index) with
       | None => raise ValueError
       | Some n =>
           if n <? 0 then
             k_cmd <- rd cmd ;; ret (PyStr.len k_cmd + n + 1)
           else ret n
       end) ;;
  let cursor := if cursor <? 0 then 0 else cursor in
  k_cmd <- rd cmd ;;
  let cursor := if cursor >? PyStr.len k_cmd then PyStr.len k_cmd else cursor in
  wr (set_cursor cursor) ;;
  update_event false.

(** The events [init] connects, with the argument the bus passes along. *)
Inductive signal :=
  | INSTANCE_START
  | INSTANCE_EXIT
  | KEY_PRESS (key : string)
  | KEY_RELEASE (key : string)
  | SET_KEYCMD (keycmd : string)
  | KEYCMD_STRIP_WORD (sep : string)
  | KEYCMD_BACKSPACE
  | KEYCMD_EXEC_CURRENT
  | SET_CURSOR_POS (index : string).

Definition connects (s : signal) : M unit :=
  match s with
  | INSTANCE_START => add_instance
  | INSTANCE_EXIT => del_instance
  | KEY_PRESS key => key_press key
  | KEY_RELEASE key => key_release key
  | SET_KEYCMD keycmd => set_keycmd keycmd
  | KEYCMD_STRIP_WORD sep => keycmd_strip_word sep
  | KEYCMD_BACKSPACE => keycmd_backspace
  | KEYCMD_EXEC_CURRENT => keycmd_exec_current
  | SET_CURSOR_POS index => set_cursor_pos index
  end.

(** Events delivered one after the other; an exception ends one delivery,
    and the bus goes on with the next event. *)
Fixpoint deliver (l : list signal) (w : World) : World :=
  match l with
  | [] => w
  | s :: l' => deliver l' (fst (connects s w))
  end.

End Handlers.

(** How often the event [name] was raised. *)
Definition raised (name : string) (t : list effect) : nat :=
  length (List.filter (fun e => match e with
                           | Event n _ => String.eqb n name
                           | SetVar _ _ => false
                           end) t).

(** A world in which nothing is registered, configured or sent yet. *)
Definition World_init : World :=
  {| UZBLS := ∅; config := ∅; trace := [] |}.

(** The data model's bound on the cursor. *)
Definition cursor_ok (k : Keylet) : Prop :=
  0 <= cursor k <= PyStr.len (cmd k).

(** The cursor-position rule in the words of the specification: ["-"] and
    ["+"] step by one, a non-negative integer is the position itself, a
    negative integer [n] stands for [len(command) + n + 1]. *)
Inductive spec_cursor_target (k : Keylet) : string -> Z -> Prop :=
  | target_minus : spec_cursor_target k "-" (cursor k - 1)
  | target_plus : spec_cursor_target k "+" (cursor k + 1)
  | target_index index n :
      PyStr.int (PyStr.strip index) = Some n -> 0 <= n ->
      spec_cursor_target k index n
  | target_from_end index n :
      PyStr.int (PyStr.strip index) = Some n -> n < 0 ->
      spec_cursor_target k index (PyStr.len (cmd k) + n + 1).

(** ** Sample runs *)

(** One instance on a bus without listeners, after a few events. *)
Definition after_events (l : list signal) : World :=
  deliver 1%positive quiet l World_init.

Definition modifier_flow : World :=
  after_events [KEY_PRESS "Control"; KEY_PRESS "a";
                KEY_RELEASE "Control"; KEY_RELEASE "a"].

Definition ab_cursor_at_start : World :=
  after_events [SET_KEYCMD "ab"; SET_CURSOR_POS "0"].

Definition typed_a_dash_dash_b : World :=
  after_events [SET_KEYCMD "a--b"].

Definition typed_abc : World :=
  after_events [SET_KEYCMD "abc"].

Definition holding_ctrl : World :=
  after_events [KEY_PRESS "Control"].

(** A registered, untouched Keylet whose instance has keycmd events
    switched off. *)
Definition keycmd_events_off : World :=
  {| UZBLS := {[ 1%positive := Keylet_init ]};
     config := {[ "keycmd_events" := "0" ]};
     trace := [] |}.

(** ** Notions the further properties are stated with *)

(** One character as [escape] sends it out: a backslash in front of a
    backslash and of an [@], every other character as it is. *)
Definition escape_char (c : ascii) : string :=
  if Ascii.eqb c "\" || Ascii.eqb c "@"
  then String "\" (String c "")
  else String c "".

Fixpoint escape_chars (s : string) : string :=
  match s with
  | EmptyString => EmptyString
  | String c r => escape_char c +:+ escape_chars r
  end.

(** A list of names in ascending order, each name once. *)
Definition ascending (l : list string) : Prop :=
  StronglySorted (fun x y => String.leb x y = true) l /\ List.NoDup l.

Definition held_ok (k : Keylet) : Prop := ascending (held k).

(** The effects the dispatcher may send: one of its two update events, or
    a write of the variable [keycmd]. *)
Definition dispatcher_effect (e : effect) : bool :=
  match e with
  | Event name _ => String.eqb name "MODCMD_UPDATE" || String.eqb name "KEYCMD_UPDATE"
  | SetVar key _ => String.eqb key "keycmd"
  end.

Definition is_event (e : effect) : bool :=
  match e with
  | Event _ _ => true
  | SetVar _ _ => false
  end.

(** A computation that leaves the registry entry of instance [u] alone. *)
Definition keeps_others (u : positive) {A} (m : M A) : Prop :=
  forall w, UZBLS (fst (m w)) !! u = UZBLS w !! u.

(** * Properties *)

(** ** Strings *)

Module PyStrFacts.
Import PyStr.

Lemma len_nonneg s : 0 <= len s.
Proof. unfold len. lia. Qed.

Lemma append_cons c a b : String c a +:+ b = String c (a +:+ b).
Proof. reflexivity. Qed.

Lemma append_assoc a b c : (a +:+ b) +:+ c = a +:+ b +:+ c.
Proof.
  induction a as [|x a IH]; [reflexivity|].
  by rewrite !append_cons, IH.
Qed.

Lemma length_append a b :
  String.length (a +:+ b) = (String.length a + String.length b)%nat.
Proof. induction a as [|c a IH]; simpl; [reflexivity | by rewrite IH]. Qed.

Lemma len_append a b : len (a +:+ b) = len a + len b.
Proof. unfold len. rewrite length_append. lia. Qed.

Lemma length_take n s : String.length (take n s) = Nat.min n (String.length s).
Proof.
  revert s. induction n as [|n IH]; intros [|c s]; simpl; try reflexivity.
  by rewrite IH.
Qed.

Lemma length_drop n s : String.length (drop n s) = (String.length s - n)%nat.
Proof.
  revert s. induction n as [|n IH]; intros [|c s]; simpl; try reflexivity.
  apply IH.
Qed.

Lemma take_drop n s : take n s +:+ drop n s = s.
Proof.
  revert s. induction n as [|n IH]; intros [|c s]; simpl; try reflexivity.
  by rewrite append_cons, IH.
Qed.

(** Inside the string, [s[:i]] has [i] characters and [s[i:]] the rest. *)
Lemma len_slice_to s i : 0 <= i <= len s -> len (slice_to s i) = i.
Proof.
  intros H. unfold slice_to, bound, len in *. rewrite length_take.
  destruct (Z.ltb_spec i 0); lia.
Qed.

Lemma len_slice_from s i : 0 <= i <= len s -> len (slice_from s i) = len s - i.
Proof.
  intros H. unfold slice_from, bound, len in *. rewrite length_drop.
  destruct (Z.ltb_spec i 0); lia.
Qed.

Lemma slice_from_append a b : slice_from (a +:+ b) (len a) = b.
Proof.
  unfold slice_from, bound. rewrite len_append.
  pose proof (len_nonneg a). pose proof (len_nonneg b).
  destruct (Z.ltb_spec (len a) 0); [lia|].
  rewrite Z.min_l by lia. unfold len. rewrite Nat2Z.id.
  clear. induction a as [|c a IH]; [by destruct b | exact IH].
Qed.

Lemma truthy_len s : truthy s = true <-> 0 < len s.
Proof. destruct s; unfold len; cbn; split; intros; try lia; congruence. Qed.

(** No [IndexError] for an index between [-len s] and [len s - 1]. *)
Lemma getitem_in_range s i : - len s <= i < len s -> is_Some (getitem s i).
Proof.
  intros H. unfold getitem.
  destruct (Z.ltb_spec i 0).
  - replace ((0 <=? len s + i) && (len s + i <? len s)) with true; [eauto|].
    symmetry. apply andb_true_iff. split; [apply Z.leb_le | apply Z.ltb_lt]; lia.
  - replace ((0 <=? i) && (i <? len s)) with true; [eauto|].
    symmetry. apply andb_true_iff. split; [apply Z.leb_le | apply Z.ltb_lt]; lia.
Qed.

Lemma inb_In x l : inb x l = true <-> In x l.
Proof.
  unfold inb. rewrite existsb_exists. split.
  - intros (y & Hy & E). apply String.eqb_eq in E. by subst.
  - intros H. exists x. split; [exact H | apply String.eqb_refl].
Qed.

Lemma insert_sorted_In y x l : In y (insert_sorted x l) <-> y = x \/ In y l.
Proof.
  induction l as [|z l IH]; simpl.
  - intuition congruence.
  - destruct (String.leb x z); simpl; rewrite ?IH; intuition congruence.
Qed.


Lemma rsplit1_cases sep s :
  (exists a b, rsplit1 sep s = [a; b]) \/ rsplit1 sep s = [s].
Proof.
  unfold rsplit1. destruct (rfind_cut sep s) as [[a b]|]; eauto.
Qed.

(** The list [tmp] of [keycmd_strip_word] has one or two elements. *)
Lemma strip_word_pieces sep s :
  (exists a b,
     (if contains sep s then rsplit1 sep (rstrip sep s) else [""]) = [a; b])
  \/ (exists a,
        (if contains sep s then rsplit1 sep (rstrip sep s) else [""]) = [a]).
Proof.
  destruct (contains sep s); [|eauto].
  destruct (rsplit1_cases sep (rstrip sep s)) as [?| ->]; eauto.
Qed.

(** A string that [int] accepts is neither ["-"] nor ["+"]. *)
Lemma parsed_not_sign index n :
  int (strip index) = Some n ->
  String.eqb index "-" = false /\ String.eqb index "+" = false.
Proof.
  intros H. split; apply String.eqb_neq; intros ->; vm_compute in H; discriminate.
Qed.

End PyStrFacts.

(** The two [if]s that bring the cursor back into range. *)
Lemma clamp_ifs c n :
  0 <= n ->
  (if (if c <? 0 then 0 else c) >? n then n else if c <? 0 then 0 else c)
  = Z.max 0 (Z.min c n).
Proof.
  intros Hn. rewrite Z.gtb_ltb.
  destruct (Z.ltb_spec c 0).
  - destruct (Z.ltb_spec n 0); lia.
  - destruct (Z.ltb_spec n c); lia.
Qed.

Lemma raised_app name t1 t2 :
  raised name (t1 ++ t2) = (raised name t1 + raised name t2)%nat.
Proof. unfold raised. by rewrite List.filter_app, length_app. Qed.

Lemma simplified_space : simplified "space" = "Space".
Proof. vm_compute. reflexivity. Qed.

(** ** [escape] and [make_simple] *)

Module EscapeFacts.
Import PyStr.

Lemma contains_char_false c s :
  contains (String c "") s = false -> replace c (String "\" (String c "")) s = s.
Proof.
  induction s as [|d r IH]; [reflexivity|].
  cbn [contains String.prefix]. destruct (ascii_dec c d) as [-> | Hne].
  - destruct r; discriminate.
  - cbn [orb]. intros H. cbn [replace].
    destruct (Ascii.eqb_spec d c); [congruence|]. rewrite IH by exact H.
    reflexivity.
Qed.

Lemma guarded_replace c s :
  (if contains (String c "") s
   then replace c (String "\" (String c "")) s else s)
  = replace c (String "\" (String c "")) s.
Proof.
  destruct (contains (String c "") s) eqn:E; [reflexivity|].
  symmetry. by apply contains_char_false.
Qed.

Lemma replace_append c new a b :
  replace c new (a +:+ b) = replace c new a +:+ replace c new b.
Proof.
  induction a as [|d a IH]; [reflexivity|].
  rewrite PyStrFacts.append_cons. cbn [replace].
  by rewrite IH, PyStrFacts.append_assoc.
Qed.

Lemma two_passes s :
  replace "@" "\@" (replace "\" "\\" s) = escape_chars s.
Proof.
  induction s as [|d r IH]; [reflexivity|].
  cbn [replace escape_chars]. rewrite replace_append, IH. f_equal.
  unfold escape_char.
  destruct (Ascii.eqb_spec d "\") as [->|H1]; [reflexivity|].
  destruct (Ascii.eqb_spec d "@") as [->|H2]; [reflexivity|].
  cbn [replace orb]. destruct (Ascii.eqb_spec d "@"); [congruence | reflexivity].
Qed.

Lemma escape_chars_inj s1 s2 : escape_chars s1 = escape_chars s2 -> s1 = s2.
Proof.
  revert s2. induction s1 as [|c1 r1 IH]; intros [|c2 r2]; cbn [escape_chars];
    unfold escape_char; try reflexivity.
  - destruct (_ || _); discriminate.
  - destruct (_ || _); discriminate.
  - destruct (Ascii.eqb c1 "\" || Ascii.eqb c1 "@") eqn:E1;
    destruct (Ascii.eqb c2 "\" || Ascii.eqb c2 "@") eqn:E2;
    rewrite !PyStrFacts.append_cons; cbn [String.append]; intros H;
    inversion H; subst.
    + f_equal. by apply IH.
    + rewrite Ascii.eqb_refl in E2. discriminate.
    + rewrite Ascii.eqb_refl in E1. discriminate.
    + f_equal. by apply IH.
Qed.

Lemma append_cancel a b t u :
  String.length a = String.length b -> a +:+ t = b +:+ u -> a = b /\ t = u.
Proof.
  revert b. induction a as [|c a IH]; intros [|d b] Hl; try discriminate.
  - auto.
  - rewrite !PyStrFacts.append_cons. intros H. inversion H; subst.
    destruct (IH b) as [-> ->]; auto.
Qed.

Lemma take_append a b : take (String.length a) (a +:+ b) = a.
Proof.
  induction a as [|c a IH]; [by destruct b|].
  rewrite PyStrFacts.append_cons. simpl. by rewrite IH.
Qed.

Lemma drop_append a b : drop (String.length a) (a +:+ b) = b.
Proof. induction a as [|c a IH]; [by destruct b | exact IH]. Qed.

End EscapeFacts.

Lemma escape_nonempty s :
  s <> "" -> escape s = "@[" +:+ escape_chars s +:+ "]@".
Proof.
  intros Hs. unfold escape. destruct s as [|c r]; [congruence|].
  cbn [PyStr.truthy negb fold_left].
  rewrite !EscapeFacts.guarded_replace.
  change (String "\" (String "\" "")) with "\\".
  change (String "\" (String "@" "")) with "\@".
  by rewrite EscapeFacts.two_passes.
Qed.

(** [escape] on a non-empty string is one pass over its characters: a
    backslash goes in front of every backslash and every [@], and the
    backslash put in front of an [@] is not escaped again. *)
Theorem escape_single_pass s :
  s <> "" -> escape s = "@[" +:+ escape_chars s +:+ "]@".
Proof. apply escape_nonempty. Qed.

(** Two different strings never escape to the same text. *)
Theorem escape_injective s1 s2 : escape s1 = escape s2 -> s1 = s2.
Proof.
  destruct s1 as [|c1 r1], s2 as [|c2 r2]; try reflexivity.
  - rewrite (escape_nonempty (String c2 r2)) by discriminate. discriminate.
  - rewrite (escape_nonempty (String c1 r1)) by discriminate. discriminate.
  - rewrite !escape_nonempty by discriminate.
    remember (escape_chars (String c1 r1)) as e1 eqn:He1.
    remember (escape_chars (String c2 r2)) as e2 eqn:He2.
    intros H. apply EscapeFacts.escape_chars_inj. rewrite <- He1, <- He2.
    change ("@[" +:+ e1 +:+ "]@") with (String "@" (String "[" (e1 +:+ "]@"))) in H.
    change ("@[" +:+ e2 +:+ "]@") with (String "@" (String "[" (e2 +:+ "]@"))) in H.
    injection H as H.
    assert (Hl : String.length e1 = String.length e2).
    { apply (f_equal String.length) in H.
      rewrite !PyStrFacts.length_append in H. lia. }
    destruct (EscapeFacts.append_cancel _ _ _ _ Hl H) as [E _]. exact E.
Qed.

(** [make_simple] does not tell the left key from the right one: with
    either suffix the name is looked up without it. *)
Theorem make_simple_left_right key :
  make_simple (key +:+ "_L") = default key (_SIMPLEKEYS !! key)
  /\ make_simple (key +:+ "_R") = default key (_SIMPLEKEYS !! key).
Proof.
  assert (H : forall suf, String.length suf = 2%nat ->
            PyStr.endswith suf (key +:+ suf) = true
            /\ PyStr.slice_to (key +:+ suf) (-2) = key).
  { intros suf Hl. split.
    - unfold PyStr.endswith. rewrite PyStrFacts.length_append.
      replace (String.length key + String.length suf - String.length suf)%nat
        with (String.length key) by lia.
      rewrite EscapeFacts.drop_append, String.eqb_refl.
      rewrite andb_true_r. apply Nat.leb_le. lia.
    - unfold PyStr.slice_to, PyStr.bound, PyStr.len.
      rewrite PyStrFacts.length_append, Hl. cbn [Z.ltb Z.compare].
      replace (Z.to_nat _) with (String.length key) by lia.
      apply EscapeFacts.take_append. }
  unfold make_simple. split.
  - destruct (H "_L" eq_refl) as [-> ->]. cbn [orb].
    by destruct (_SIMPLEKEYS !! key).
  - destruct (H "_R" eq_refl) as [-> ->]. rewrite orb_true_r.
    by destruct (_SIMPLEKEYS !! key).
Qed.

(** ** Sorted lists of names *)

Module HeldFacts.
Import PyStr.

Lemma leb_iff x y :
  String.leb x y = true <-> x = y \/ String_as_OT.lt x y.
Proof.
  unfold String.leb. rewrite <- String_as_OT.cmp_lt.
  unfold String_as_OT.cmp. split.
  - destruct (String.compare x y) eqn:E; try discriminate; intros _.
    + left. by apply String.compare_eq_iff.
    + by right.
  - intros [-> | ->]; [|reflexivity].
    destruct (String.compare y y) eqn:E; try reflexivity.
    pose proof (String.compare_antisym y y) as H. rewrite E in H. discriminate.
Qed.

Lemma leb_trans x y z :
  String.leb x y = true -> String.leb y z = true -> String.leb x z = true.
Proof.
  rewrite !leb_iff. intros [-> | H1] [-> | H2]; auto.
  right. eapply String_as_OT.lt_trans; eauto.
Qed.

Lemma leb_false x y : String.leb x y = false -> String.leb y x = true.
Proof. destruct (String.leb_total x y); congruence. Qed.

Lemma insert_sorted_perm x l : Permutation (insert_sorted x l) (x :: l).
Proof.
  induction l as [|y l IH]; cbn; [reflexivity|].
  destruct (String.leb x y); [reflexivity|].
  rewrite IH. apply perm_swap.
Qed.

Lemma sort_perm l : Permutation (sort l) l.
Proof.
  induction l as [|x l IH]; cbn; [reflexivity|].
  rewrite insert_sorted_perm. by constructor.
Qed.

Lemma insert_sorted_sorted x l :
  StronglySorted (fun a b => String.leb a b = true) l ->
  StronglySorted (fun a b => String.leb a b = true) (insert_sorted x l).
Proof.
  induction 1 as [|y l Hs IH Hy]; cbn.
  - repeat constructor.
  - destruct (String.leb x y) eqn:E.
    + constructor; [by constructor|]. constructor; [exact E|].
      eapply List.Forall_impl; [|exact Hy]. intros z Hz. eapply leb_trans; eauto.
    + constructor; [exact IH|]. apply List.Forall_forall. intros z Hz.
      apply PyStrFacts.insert_sorted_In in Hz. destruct Hz as [-> | Hz].
      * by apply leb_false.
      * rewrite List.Forall_forall in Hy. by apply Hy.
Qed.

(** [sort] returns an ascending list with the elements it was given. *)
Lemma sort_sorted l : StronglySorted (fun a b => String.leb a b = true) (sort l).
Proof.
  induction l as [|x l IH]; cbn; [constructor|]. by apply insert_sorted_sorted.
Qed.

Lemma remove_In y x l : In y (remove x l) -> In y l.
Proof.
  induction l as [|z l IH]; cbn; [tauto|].
  destruct (String.eqb x z); cbn; intuition.
Qed.

Lemma ascending_remove x l : ascending l -> ascending (remove x l).
Proof.
  intros [Hs Hn]. split.
  - induction Hs as [|z l Hs IH Hz]; cbn; [constructor|].
    destruct (String.eqb x z); [exact Hs|].
    inversion Hn; subst. constructor; [by apply IH|].
    apply List.Forall_forall. intros y Hy. apply remove_In in Hy.
    rewrite List.Forall_forall in Hz. by apply Hz.
  - induction Hn as [|z l Hz Hn IH]; cbn; [constructor|].
    inversion Hs; subst.
    destruct (String.eqb x z); [exact Hn|].
    constructor; [|by apply IH]. intros Hy. apply Hz. by apply remove_In in Hy.
Qed.

Lemma ascending_sort_append x l :
  ascending l -> inb x l = false -> ascending (sort (l ++ [x])).
Proof.
  intros [_ Hn] Hx. split; [apply sort_sorted|].
  eapply Permutation.Permutation_NoDup; [symmetry; apply sort_perm|].
  eapply Permutation.Permutation_NoDup; [apply Permutation_cons_append|].
  constructor; [|exact Hn].
  intros Hin. apply PyStrFacts.inb_In in Hin. congruence.
Qed.

(** Removing a name from an ascending list removes it altogether. *)
Lemma ascending_remove_gone x l : ascending l -> inb x (remove x l) = false.
Proof.
  intros [_ Hn]. destruct (inb x (remove x l)) eqn:E; [|reflexivity].
  exfalso. apply PyStrFacts.inb_In in E.
  induction Hn as [|z l Hz Hn IH]; cbn in E; [tauto|].
  destruct (String.eqb_spec x z) as [-> | Hne]; [tauto|].
  destruct E as [-> | E]; [congruence | tauto].
Qed.

End HeldFacts.

(** ** Slices and splits *)

Module SliceFacts.
Import PyStr.

Lemma take_all s : take (String.length s) s = s.
Proof. induction s as [|c s IH]; [reflexivity | simpl; by rewrite IH]. Qed.

Lemma drop_all s : drop (String.length s) s = "".
Proof. induction s as [|c s IH]; [reflexivity | exact IH]. Qed.

Lemma slice_to_full s : slice_to s (len s) = s.
Proof.
  unfold slice_to, bound. pose proof (PyStrFacts.len_nonneg s).
  destruct (Z.ltb_spec (len s) 0); [lia|].
  rewrite Z.min_id. unfold len. rewrite Nat2Z.id. apply take_all.
Qed.

Lemma slice_from_past s : slice_from s (len s + 1) = "".
Proof.
  unfold slice_from, bound. pose proof (PyStrFacts.len_nonneg s).
  destruct (Z.ltb_spec (len s + 1) 0); [lia|].
  rewrite Z.min_r by lia. unfold len. rewrite Nat2Z.id. apply drop_all.
Qed.

Lemma slice_to_append a b : slice_to (a +:+ b) (len a) = a.
Proof.
  unfold slice_to, bound. rewrite PyStrFacts.len_append.
  pose proof (PyStrFacts.len_nonneg a). pose proof (PyStrFacts.len_nonneg b).
  destruct (Z.ltb_spec (len a) 0); [lia|].
  rewrite Z.min_l by lia. unfold len. rewrite Nat2Z.id.
  apply EscapeFacts.take_append.
Qed.

(** A string is its part before an index followed by its part from it. *)
Lemma slices_join s i : slice_to s i +:+ slice_from s i = s.
Proof. apply PyStrFacts.take_drop. Qed.

Lemma prefix_split p s :
  String.prefix p s = true -> s = p +:+ drop (String.length p) s.
Proof.
  revert s. induction p as [|c p IH]; intros s; [reflexivity|].
  destruct s as [|d s]; [discriminate|]. cbn [String.prefix].
  destruct (ascii_dec c d) as [-> | _]; [|discriminate].
  intros H. rewrite PyStrFacts.append_cons. simpl. f_equal. by apply IH.
Qed.

(** [rfind_cut] cuts the string at an occurrence of the separator. *)
Lemma rfind_cut_spec sep s a b :
  rfind_cut sep s = Some (a, b) -> s = a +:+ sep +:+ b.
Proof.
  revert a b. induction s as [|c r IH]; intros a b; [discriminate|].
  cbn [rfind_cut]. destruct (rfind_cut sep r) as [[a' b']|].
  - intros [= <- <-]. rewrite PyStrFacts.append_cons. f_equal. by apply IH.
  - destruct (String.prefix sep (String c r)) eqn:E; [|discriminate].
    intros [= <- <-]. by apply prefix_split.
Qed.

(** [rstrip] only cuts characters off the end. *)
Lemma rstrip_prefix chars s : exists t, s = rstrip chars s +:+ t.
Proof.
  induction s as [|c r [t IH]]; [by exists ""|].
  cbn [rstrip]. destruct (rstrip chars r) as [|d r'] eqn:E.
  - destruct (mem c chars).
    + by exists (String c r).
    + exists r. reflexivity.
  - exists t. rewrite PyStrFacts.append_cons. f_equal. exact IH.
Qed.

(** What [keycmd_strip_word] keeps of the text before the cursor is a
    beginning of that text. *)
Lemma strip_word_keeps_prefix sep s :
  exists removed,
    s = hd "" (if contains sep s then rsplit1 sep (rstrip sep s) else [""])
        +:+ (if (length (if contains sep s then rsplit1 sep (rstrip sep s)
                         else [""]) =? 2)%nat then sep else "")
        +:+ removed.
Proof.
  destruct (contains sep s).
  - destruct (rstrip_prefix sep s) as [t Ht].
    unfold rsplit1. destruct (rfind_cut sep (rstrip sep s)) as [[a b]|] eqn:E.
    + apply rfind_cut_spec in E. cbn [hd length Nat.eqb].
      exists (b +:+ t). rewrite Ht at 1. rewrite E.
      by rewrite !PyStrFacts.append_assoc.
    + cbn [hd length Nat.eqb]. exists t. exact Ht.
  - cbn [hd length Nat.eqb]. by exists s.
Qed.

Lemma one_char_no_prefix p key :
  (1 < String.length p)%nat -> String.length key = 1%nat ->
  String.prefix p key = false.
Proof.
  destruct p as [|a [|b p]]; cbn; try lia. intros _.
  destruct key as [|c [|d key]]; cbn; try discriminate. intros _.
  by destruct (ascii_dec a c).
Qed.

End SliceFacts.

(** ** Handlers *)

Section Facts.

Variable uzbl : positive.
Variable react : listener.

(** *** Reading the world back after a step *)

Lemma this_upd f w : this uzbl (upd uzbl f w) = f (this uzbl w).
Proof. unfold this, upd. cbn. by rewrite lookup_insert_eq. Qed.

Lemma this_emit e w : this uzbl (emit e w) = this uzbl w.
Proof. reflexivity. Qed.

Lemma this_assign key v w : this uzbl (assign key v w) = this uzbl w.
Proof. reflexivity. Qed.

Lemma this_reconf c w : this uzbl (reconf c w) = this uzbl w.
Proof. reflexivity. Qed.

Lemma config_upd f w : config (upd uzbl f w) = config w.
Proof. reflexivity. Qed.

Lemma trace_upd f w : trace (upd uzbl f w) = trace w.
Proof. reflexivity. Qed.

(** Symbolic execution of a handler body: unfold the monad, push the
    projections through the world updates. *)
Ltac run :=
  repeat (first
    [ progress unfold bind, ret, rd, wr, when, get_config, uzbl_set, raise,
        config_assign, to_string
    | progress cbn beta iota zeta delta [fst snd]
    | progress rewrite ?this_upd, ?this_emit, ?this_assign, ?this_reconf,
        ?config_upd, ?trace_upd
    | progress cbn [cmd cursor held _to_string modcmd
                    set_cmd set_cursor set_held set_cache set_modcmd
                    key_cmd config trace emit assign reconf
                    negb andb orb fst snd] ]).

(** Case analysis on every test the body makes. *)
Ltac branch :=
  match goal with
  | |- context [if ?b then _ else _] => destruct b eqn:?
  | |- context [match ?o with Some _ => _ | None => _ end] => destruct o eqn:?
  end.

(** [get_keylet] returns, the Keylet it hands out is the registered one (or
    a new one) with the cache cleared, and nothing else changes. *)
Lemma get_keylet_run w :
  exists w', get_keylet uzbl w = (w', Returns tt)
    /\ this uzbl w' = set_cache None (this uzbl w)
    /\ config w' = config w /\ trace w' = trace w.
Proof.
  unfold get_keylet, bind, registered, when, add_instance, wr, ret.
  destruct (UZBLS w !! uzbl) as [k|] eqn:E.
  - rewrite bool_decide_eq_true_2 by eauto. cbn.
    eexists; split; [reflexivity|]. rewrite this_upd. auto.
  - rewrite bool_decide_eq_false_2 by (intros [? ?]; congruence). cbn.
    eexists; split; [reflexivity|]. rewrite !this_upd.
    unfold this at 1. rewrite E. auto.
Qed.

(** *** The dispatcher *)

(** Without [execute] the dispatcher raises no event, so whatever the
    listeners are it leaves command, cursor, held keys, mode and
    configuration alone. *)
Lemma update_event_false_frame w :
  exists w' o, update_event uzbl react false w = (w', o)
    /\ cmd (this uzbl w') = cmd (this uzbl w)
    /\ cursor (this uzbl w') = cursor (this uzbl w)
    /\ held (this uzbl w') = held (this uzbl w)
    /\ modcmd (this uzbl w') = modcmd (this uzbl w)
    /\ config w' = config w.
Proof.
  unfold update_event. run.
  repeat (run; branch);
  do 2 eexists; (split; [reflexivity|]); run; repeat split; congruence.
Qed.

(** It returns normally when the cursor is not below [-len(command)]. *)
Lemma update_event_false_returns w :
  - PyStr.len (cmd (this uzbl w)) <= cursor (this uzbl w) ->
  exists w', update_event uzbl react false w = (w', Returns tt)
    /\ cmd (this uzbl w') = cmd (this uzbl w)
    /\ cursor (this uzbl w') = cursor (this uzbl w)
    /\ held (this uzbl w') = held (this uzbl w)
    /\ modcmd (this uzbl w') = modcmd (this uzbl w)
    /\ config w' = config w.
Proof.
  intros Hc. unfold update_event. run.
  destruct (modcmd (this uzbl w)) eqn:Hm.
  - destruct (_to_string (this uzbl w)) eqn:Hs; run;
      rewrite ?Hs; run; rewrite String.eqb_refl; run;
      destruct (switched_off (config w) "modcmd_updates"); run;
      eexists; (split; [reflexivity|]); run; repeat split; congruence.
  - destruct (switched_off (config w) "keycmd_events"); run.
    { eexists; (split; [reflexivity|]); repeat split; congruence. }
    rewrite String.eqb_refl. run.
    destruct (PyStr.truthy (cmd (this uzbl w))); run.
    2:{ eexists; (split; [reflexivity|]); run; repeat split; congruence. }
    destruct (Z.ltb_spec (cursor (this uzbl w)) (PyStr.len (cmd (this uzbl w)))); run.
    + destruct (PyStrFacts.getitem_in_range (cmd (this uzbl w)) (cursor (this uzbl w)))
        as [c Hg]; [lia|]. rewrite Hg. run.
      eexists; (split; [reflexivity|]); run; repeat split; congruence.
    + eexists; (split; [reflexivity|]); run; repeat split; congruence.
Qed.

Lemma uzbl_event_quiet name b w :
  uzbl_event uzbl quiet name b w
  = (reconf (config w)
       (upd uzbl (fun _ => this uzbl w)
          (emit (Event name (if b then Some (this uzbl w) else None)) w)),
     Returns tt).
Proof. reflexivity. Qed.

(** On a bus without listeners the same holds with [execute]. *)
Lemma update_event_quiet execute w :
  exists w' o, update_event uzbl quiet execute w = (w', o)
    /\ cmd (this uzbl w') = cmd (this uzbl w)
    /\ cursor (this uzbl w') = cursor (this uzbl w)
    /\ held (this uzbl w') = held (this uzbl w)
    /\ modcmd (this uzbl w') = modcmd (this uzbl w)
    /\ config w' = config w.
Proof.
  unfold update_event. run.
  repeat (run; rewrite ?uzbl_event_quiet; run; branch);
  do 2 eexists; (split; [reflexivity|]); run; repeat split; congruence.
Qed.

Lemma when_update_event_quiet b w :
  exists w' o, when b (update_event uzbl quiet true) w = (w', o)
    /\ cmd (this uzbl w') = cmd (this uzbl w)
    /\ cursor (this uzbl w') = cursor (this uzbl w)
    /\ held (this uzbl w') = held (this uzbl w)
    /\ modcmd (this uzbl w') = modcmd (this uzbl w)
    /\ config w' = config w.
Proof.
  destruct b; [apply update_event_quiet|].
  exists w, (Returns tt). repeat split; reflexivity.
Qed.

(** The dispatcher only ever adds [MODCMD_UPDATE], [KEYCMD_UPDATE] and
    variable writes to the trace. *)
Lemma update_event_trace execute w :
  exists es,
    trace (fst (update_event uzbl react execute w)) = (trace w ++ es)%list
    /\ raised "MODCMD_EXEC" es = 0%nat
    /\ raised "KEYCMD_EXEC" es = 0%nat
    /\ raised "KEYCMD_CLEAR" es = 0%nat.
Proof.
  unfold update_event, uzbl_event. run.
  repeat (run; match goal with
    | |- context [react ?n ?k ?c] => destruct (react n k c)
    | _ => branch
    end);
  run;
  first
    [ exists []; split; [symmetry; apply app_nil_r | repeat split]
    | eexists; split; [rewrite <- ?app_assoc; reflexivity | repeat split] ].
Qed.

Lemma set_cache_same k s : _to_string k = Some s -> set_cache (Some s) k = k.
Proof. destruct k. cbn. by intros ->. Qed.

(** C4, as the code has it, with [execute].  A Keylet in modcmd mode
    always gets its [MODCMD_UPDATE] first; the write of [keycmd] follows
    it exactly when the listeners left the serialized form as it was and
    [modcmd_updates] is not switched off, so that flag holds back the write
    and nothing else.  A Keylet outside modcmd mode gets its
    [KEYCMD_UPDATE] only if [keycmd_events] is absent or ["1"]; otherwise
    the dispatcher returns at once, with no event and no write. *)
Theorem update_event_raises w :
  if modcmd (this uzbl w)
  then
    trace (fst (update_event uzbl react true w))
    = (trace w
       ++ Event "MODCMD_UPDATE"
            (Some (set_cache (Some (serialized (this uzbl w))) (this uzbl w)))
       :: (if String.eqb (serialized (this uzbl w))
                (serialized
                   (fst (react "MODCMD_UPDATE"
                           (set_cache (Some (serialized (this uzbl w)))
                                      (this uzbl w))
                           (config w))))
              && negb (switched_off
                         (snd (react "MODCMD_UPDATE"
                                 (set_cache (Some (serialized (this uzbl w)))
                                            (this uzbl w))
                                 (config w)))
                         "modcmd_updates")
           then [SetVar "keycmd" (escape (serialized (this uzbl w)))]
           else []))%list
  else if switched_off (config w) "keycmd_events"
  then update_event uzbl react true w = (w, Returns tt)
  else exists rest,
         trace (fst (update_event uzbl react true w))
         = (trace w ++ Event "KEYCMD_UPDATE" (Some (this uzbl w)) :: rest)%list.
Proof.
  unfold update_event, uzbl_event. run.
  destruct (modcmd (this uzbl w)) eqn:Hm.
  - unfold serialized at 1 2 3 4 5 6.
    destruct (_to_string (this uzbl w)) as [s0|] eqn:Hs; run.
    + rewrite (set_cache_same _ _ Hs).
      destruct (react "MODCMD_UPDATE" (this uzbl w) (config w)) as [k' c'].
      run. unfold serialized.
      destruct (_to_string k'); run;
        destruct (String.eqb s0 _); run;
        destruct (switched_off c' "modcmd_updates"); run;
        rewrite <- ?app_assoc; reflexivity.
    + destruct (react "MODCMD_UPDATE" _ (config w)) as [k' c'].
      run. unfold serialized.
      destruct (_to_string k'); run;
        destruct (String.eqb _ _); run;
        destruct (switched_off c' "modcmd_updates"); run;
        rewrite <- ?app_assoc; reflexivity.
  - destruct (switched_off (config w) "keycmd_events"); run; [reflexivity|].
    repeat (run; match goal with
      | |- context [react ?n ?k ?c] => destruct (react n k c)
      | _ => branch
      end);
    run; eexists; rewrite <- ?app_assoc; reflexivity.
Qed.

(** *** Key press and key release *)

(** C9: releasing a key whose resolved name is not held changes neither
    command, cursor, held keys nor mode, sends nothing to the bus and
    leaves the configuration as it is. *)
Theorem key_release_not_held w key :
  PyStr.inb (released (simplified key) (held (this uzbl w)))
            (held (this uzbl w)) = false ->
  exists w', key_release uzbl react key w = (w', Returns tt)
    /\ cmd (this uzbl w') = cmd (this uzbl w)
    /\ cursor (this uzbl w') = cursor (this uzbl w)
    /\ held (this uzbl w') = held (this uzbl w)
    /\ modcmd (this uzbl w') = modcmd (this uzbl w)
    /\ config w' = config w
    /\ trace w' = trace w.
Proof.
  intros Hn. destruct (get_keylet_run w) as (w1 & E1 & K1 & C1 & T1).
  unfold key_release. cbv zeta. unfold bind at 1. rewrite E1.
  run. rewrite K1. run. rewrite Hn. run.
  exists w1. rewrite K1. run. repeat split; assumption.
Qed.

(** A release raises [MODCMD_EXEC] exactly when the released key was held
    and a key with a name longer than one character is still held after
    it has been taken out. *)
Lemma key_release_exec_count w key :
  raised "MODCMD_EXEC" (trace (fst (key_release uzbl react key w)))
  = (raised "MODCMD_EXEC" (trace w)
     + if PyStr.inb (released (simplified key) (held (this uzbl w)))
                    (held (this uzbl w))
          && existsb (fun x => negb (String.length x =? 1)%nat)
               (PyStr.remove (released (simplified key) (held (this uzbl w)))
                             (held (this uzbl w)))
       then 1 else 0)%nat.
Proof.
  unfold key_release. generalize (simplified key). clear key. intros key.
  cbv zeta. destruct (get_keylet_run w) as (w1 & E1 & K1 & C1 & T1).
  unfold bind at 1. rewrite E1. run. rewrite K1. run.
  destruct (PyStr.inb _ _) eqn:Hin; run; [|rewrite T1; lia].
  rewrite K1. unfold mod_held. run.
  destruct (existsb _ _) eqn:Hmod; run.
  - unfold uzbl_event. run. destruct (react _ _ _) as [k' c']. run.
    match goal with
    | |- context [update_event uzbl react true ?W] =>
        destruct (update_event_trace true W) as (es & -> & Hes & _)
    end.
    run. rewrite !raised_app, Hes, T1.
    change (raised "MODCMD_EXEC" [Event "MODCMD_EXEC" ?p]) with 1%nat. lia.
  - match goal with
    | |- context [update_event uzbl react true ?W] =>
        destruct (update_event_trace true W) as (es & -> & Hes & _)
    end.
    run. rewrite raised_app, Hes, T1. lia.
Qed.


(** The other side of C8: once there is a command, outside modcmd mode,
    the same key puts a space at the cursor and holds nothing. *)
Lemma key_press_space_on_typed_command w :
  PyStr.truthy (cmd (this uzbl w)) = true ->
  modcmd (this uzbl w) = false ->
  exists w' o, key_press uzbl quiet "space" w = (w', o)
    /\ cmd (this uzbl w') =
         PyStr.slice_to (cmd (this uzbl w)) (cursor (this uzbl w)) +:+ " "
         +:+ PyStr.slice_from (cmd (this uzbl w)) (cursor (this uzbl w))
    /\ cursor (this uzbl w') = cursor (this uzbl w) + 1
    /\ held (this uzbl w') = held (this uzbl w)
    /\ modcmd (this uzbl w') = false.
Proof.
  intros Hc Hm. destruct (get_keylet_run w) as (w1 & E1 & K1 & C1 & T1).
  unfold key_press. change (PyStr.startswith "Shift_" "space") with false.
  cbv iota. rewrite simplified_space. cbv zeta.
  unfold bind at 1. rewrite E1.
  run. rewrite K1. run. rewrite Hc, Hm. run. rewrite String.eqb_refl. run.
  rewrite ?K1. run. rewrite Hm. run.
  match goal with
  | |- context [update_event uzbl quiet true ?W] =>
      destruct (update_event_quiet true W) as (w' & o & -> & H1 & H2 & H3 & H4 & _)
  end.
  exists w', o. split; [reflexivity|].
  rewrite H1, H2, H3, H4. run. rewrite K1. run. repeat split; congruence.
Qed.

(** *** Editing commands *)

(** The end of [set_cursor_pos], from the clamping on: it returns, and the
    cursor is the requested position brought into [0 .. len(command)]. *)
Lemma set_cursor_pos_clamps w c :
  exists w',
    (let cursor := if c <? 0 then 0 else c in
     k_cmd <- rd uzbl cmd ;;
     let cursor :=
       if cursor >? PyStr.len k_cmd then PyStr.len k_cmd else cursor in
     wr uzbl (set_cursor cursor) ;;
     update_event uzbl react false) w = (w', Returns tt)
    /\ cursor (this uzbl w') = Z.max 0 (Z.min c (PyStr.len (cmd (this uzbl w))))
    /\ cmd (this uzbl w') = cmd (this uzbl w)
    /\ held (this uzbl w') = held (this uzbl w)
    /\ modcmd (this uzbl w') = modcmd (this uzbl w)
    /\ config w' = config w.
Proof.
  run. rewrite clamp_ifs by apply PyStrFacts.len_nonneg.
  set (n := PyStr.len (cmd (this uzbl w))).
  destruct (update_event_false_returns
              (upd uzbl (set_cursor (Z.max 0 (Z.min c n))) w))
    as (w' & E & Hcmd & Hcur & Hheld & Hmod & Hcfg).
  { run. pose proof (PyStrFacts.len_nonneg (cmd (this uzbl w))). lia. }
  revert Hcmd Hcur Hheld Hmod Hcfg. run. intros.
  exists w'. rewrite E. repeat split; congruence.
Qed.

(** C6: for ["-"], ["+"] and every string that [int] accepts,
    [set_cursor_pos] returns normally and moves the cursor to the position
    the rule names, clamped into [0 .. len(command)]; command, held keys,
    mode and configuration stay as they are. *)
Theorem set_cursor_pos_spec w index c :
  spec_cursor_target (this uzbl w) index c ->
  exists w', set_cursor_pos uzbl react index w = (w', Returns tt)
    /\ cursor (this uzbl w') = Z.max 0 (Z.min c (PyStr.len (cmd (this uzbl w))))
    /\ cmd (this uzbl w') = cmd (this uzbl w)
    /\ held (this uzbl w') = held (this uzbl w)
    /\ modcmd (this uzbl w') = modcmd (this uzbl w)
    /\ config w' = config w.
Proof.
  intros Hs. destruct (get_keylet_run w) as (w1 & E1 & K1 & C1 & T1).
  assert (Hk : forall c', c' = c ->
    exists w',
      (let cursor := if c' <? 0 then 0 else c' in
       k_cmd <- rd uzbl cmd ;;
       let cursor :=
         if cursor >? PyStr.len k_cmd then PyStr.len k_cmd else cursor in
       wr uzbl (set_cursor cursor) ;;
       update_event uzbl react false) w1 = (w', Returns tt)
      /\ cursor (this uzbl w') = Z.max 0 (Z.min c (PyStr.len (cmd (this uzbl w))))
      /\ cmd (this uzbl w') = cmd (this uzbl w)
      /\ held (this uzbl w') = held (this uzbl w)
      /\ modcmd (this uzbl w') = modcmd (this uzbl w)
      /\ config w' = config w).
  { intros c' ->.
    destruct (set_cursor_pos_clamps w1 c) as (w' & E & H1 & H2 & H3 & H4 & H5).
    exists w'. split; [exact E|]. rewrite H1, H2, H3, H4, H5, K1, C1. cbn.
    repeat split; reflexivity. }
  unfold set_cursor_pos. unfold bind at 1. rewrite E1. unfold bind at 1.
  inversion Hs as [ | | ? n Hi Hn | ? n Hi Hn ]; subst.
  - cbn [String.eqb Ascii.eqb]. unfold bind at 1, rd at 1, ret at 1.
    apply Hk. rewrite K1. reflexivity.
  - cbn [String.eqb Ascii.eqb]. unfold bind at 1, rd at 1, ret at 1.
    apply Hk. rewrite K1. reflexivity.
  - destruct (PyStrFacts.parsed_not_sign _ _ Hi) as [-> ->]. rewrite Hi.
    destruct (Z.ltb_spec c 0); [lia|]. unfold ret at 1. apply Hk. reflexivity.
  - destruct (PyStrFacts.parsed_not_sign _ _ Hi) as [-> ->]. rewrite Hi.
    destruct (Z.ltb_spec n 0); [|lia]. unfold bind at 1, rd at 1, ret at 1.
    apply Hk. rewrite K1. reflexivity.
Qed.

(** C7: a cursor specification that is neither ["-"] nor ["+"] and that
    [int] rejects makes [set_cursor_pos] end with [int]'s [ValueError];
    command, cursor, held keys and mode are as before, nothing was sent to
    the bus and the configuration was not written. *)
Theorem set_cursor_pos_unparseable w index :
  index <> "-" -> index <> "+" ->
  PyStr.int (PyStr.strip index) = None ->
  exists w', set_cursor_pos uzbl react index w = (w', Raises ValueError)
    /\ cmd (this uzbl w') = cmd (this uzbl w)
    /\ cursor (this uzbl w') = cursor (this uzbl w)
    /\ held (this uzbl w') = held (this uzbl w)
    /\ modcmd (this uzbl w') = modcmd (this uzbl w)
    /\ config w' = config w
    /\ trace w' = trace w.
Proof.
  intros Hm Hp Hi. destruct (get_keylet_run w) as (w1 & E1 & K1 & C1 & T1).
  unfold set_cursor_pos, bind. rewrite E1.
  apply String.eqb_neq in Hm, Hp. rewrite Hm, Hp, Hi.
  unfold raise. exists w1. rewrite K1. cbn. repeat split; assumption.
Qed.

(** C10, as the code has it: on an empty command [keycmd_strip_word]
    returns right after [get_keylet].  The Keylet is the one it found with
    the serialization cache cleared, and neither the bus nor the
    configuration is touched. *)
Theorem strip_word_empty_command w sep :
  cmd (this uzbl w) = "" ->
  exists w', keycmd_strip_word uzbl react sep w = (w', Returns tt)
    /\ this uzbl w' = set_cache None (this uzbl w)
    /\ config w' = config w
    /\ trace w' = trace w.
Proof.
  intros Hc. destruct (get_keylet_run w) as (w1 & E1 & K1 & C1 & T1).
  unfold keycmd_strip_word, bind. rewrite E1. unfold rd at 1.
  rewrite K1. cbn [cmd set_cache]. rewrite Hc. cbn.
  exists w1. unfold ret. auto.
Qed.

(** With a separator of one character [keycmd_strip_word] keeps the text
    after the cursor, so its assertion holds and it returns. *)
Lemma strip_word_one_char_separator w sep :
  String.length sep = 1%nat ->
  cursor_ok (this uzbl w) ->
  exists w', keycmd_strip_word uzbl react sep w = (w', Returns tt)
    /\ PyStr.len (cmd (this uzbl w')) - cursor (this uzbl w')
       = PyStr.len (cmd (this uzbl w)) - cursor (this uzbl w)
    /\ PyStr.slice_from (cmd (this uzbl w')) (cursor (this uzbl w'))
       = PyStr.slice_from (cmd (this uzbl w)) (cursor (this uzbl w))
    /\ cursor_ok (this uzbl w').
Proof.
  unfold cursor_ok. intros Hsep Hok.
  destruct (get_keylet_run w) as (w1 & E1 & K1 & C1 & T1).
  set (k := this uzbl w) in *.
  assert (Hl : PyStr.len sep = 1) by (unfold PyStr.len; lia).
  assert (Ht : PyStr.truthy sep = true) by (apply PyStrFacts.truthy_len; lia).
  unfold keycmd_strip_word. rewrite Ht. unfold bind at 1. rewrite E1. run.
  rewrite K1. run.
  destruct (PyStr.truthy (cmd k)) eqn:Hcmd; run.
  2:{ exists w1. rewrite K1. run. fold k. auto. }
  rewrite ?K1. run.
  pose proof (PyStrFacts.len_slice_from (cmd k) (cursor k) Hok) as Hrest.
  set (rest := PyStr.slice_from (cmd k) (cursor k)) in *.
  destruct (PyStrFacts.strip_word_pieces sep (PyStr.slice_to (cmd k) (cursor k)))
    as [(a & b & ->) | (a & ->)]; cbn [hd length Nat.eqb].
  - replace (PyStr.len (a +:+ sep +:+ rest) - (PyStr.len a + (Z.of_nat 2 - 1))
             =? PyStr.len (cmd k) - cursor k) with true
      by (symmetry; apply Z.eqb_eq; rewrite !PyStrFacts.len_append; lia).
    run.
    destruct (update_event_false_returns
      (upd uzbl (set_cursor (PyStr.len a + (Z.of_nat 2 - 1)))
         (upd uzbl (set_cmd (a +:+ sep +:+ rest)) w1)))
      as (w' & E & Hc & Hp & _).
    { run. pose proof (PyStrFacts.len_nonneg a).
      pose proof (PyStrFacts.len_nonneg (a +:+ sep +:+ rest)). lia. }
    revert Hc Hp. run. intros Hc Hp.
    exists w'. split; [exact E|]. rewrite Hc, Hp.
    rewrite !PyStrFacts.len_append.
    replace (PyStr.len a + (Z.of_nat 2 - 1)) with (PyStr.len (a +:+ sep))
      by (rewrite PyStrFacts.len_append; lia).
    rewrite <- (PyStrFacts.append_assoc a sep rest).
    rewrite PyStrFacts.slice_from_append, !PyStrFacts.len_append.
    pose proof (PyStrFacts.len_nonneg a). pose proof (PyStrFacts.len_nonneg rest).
    repeat split; lia.
  - replace (PyStr.len (a +:+ "" +:+ rest) - (PyStr.len a + (Z.of_nat 1 - 1))
             =? PyStr.len (cmd k) - cursor k) with true
      by (symmetry; apply Z.eqb_eq; rewrite !PyStrFacts.len_append;
          change (PyStr.len "") with 0; lia).
    run.
    destruct (update_event_false_returns
      (upd uzbl (set_cursor (PyStr.len a + (Z.of_nat 1 - 1)))
         (upd uzbl (set_cmd (a +:+ "" +:+ rest)) w1)))
      as (w' & E & Hc & Hp & _).
    { run. pose proof (PyStrFacts.len_nonneg a).
      pose proof (PyStrFacts.len_nonneg (a +:+ "" +:+ rest)). lia. }
    revert Hc Hp. run. intros Hc Hp.
    exists w'. split; [exact E|]. rewrite Hc, Hp.
    change ("" +:+ rest) with rest.
    replace (PyStr.len a + (Z.of_nat 1 - 1)) with (PyStr.len a) by lia.
    rewrite PyStrFacts.slice_from_append, !PyStrFacts.len_append.
    pose proof (PyStrFacts.len_nonneg a). pose proof (PyStrFacts.len_nonneg rest).
    repeat split; lia.
Qed.

(** *** The cursor bound *)

(** Where the bound [0 <= cursor <= len(command)] survives: every handler
    but [keycmd_backspace] keeps it, and [keycmd_backspace] keeps it when
    there is a character before the cursor. *)

Ltac keylet_rw :=
  repeat match goal with
  | H : this uzbl ?x = _ |- context [this uzbl ?x] => rewrite H
  end.

Ltac len_facts :=
  repeat match goal with
  | |- context [PyStr.len ?s] =>
      lazymatch goal with
      | _ : 0 <= PyStr.len s |- _ => fail
      | _ => pose proof (PyStrFacts.len_nonneg s)
      end
  end.

Ltac frame_step :=
  match goal with
  | |- context [get_keylet uzbl ?W] =>
      destruct (get_keylet_run W) as (? & -> & ? & _)
  | |- context [uzbl_event uzbl quiet ?n ?b ?W] =>
      rewrite (uzbl_event_quiet n b W)
  | |- context [(if ?b then update_event uzbl quiet true else ?g) ?W] =>
      let Hc := fresh in let Hp := fresh in
      change ((if b then update_event uzbl quiet true else g) W)
        with (when b (update_event uzbl quiet true) W);
      destruct (when_update_event_quiet b W) as (? & ? & -> & Hc & Hp & _);
      unfold cursor_ok; cbn [fst]; rewrite Hc, Hp
  | |- context [update_event uzbl quiet ?e ?W] =>
      let Hc := fresh in let Hp := fresh in
      destruct (update_event_quiet e W) as (? & ? & -> & Hc & Hp & _);
      unfold cursor_ok; cbn [fst]; rewrite Hc, Hp
  | |- context [update_event uzbl ?r false ?W] =>
      let Hc := fresh in let Hp := fresh in
      destruct (update_event_false_frame W) as (? & ? & -> & Hc & Hp & _);
      unfold cursor_ok; cbn [fst]; rewrite Hc, Hp
  | _ => branch
  end.

Ltac crunch := repeat (run; keylet_rw; run; frame_step).

Ltac arith :=
  unfold cursor_ok in *; run; keylet_rw; run; rewrite ?PyStrFacts.len_append;
  try change (PyStr.len " ") with 1; try change (PyStr.len "") with 0;
  len_facts; try lia.

Lemma key_press_cursor_ok w key :
  cursor_ok (this uzbl w) ->
  cursor_ok (this uzbl (fst (key_press uzbl quiet key w))).
Proof.
  intros Hok. unfold key_press.
  destruct (PyStr.startswith "Shift_" key); [exact Hok|].
  generalize (simplified key). clear key. intros key. cbv zeta.
  pose proof (PyStrFacts.len_slice_to _ _ Hok) as Hto.
  pose proof (PyStrFacts.len_slice_from _ _ Hok) as Hfrom.
  crunch; arith.
Qed.

Lemma key_release_cursor_ok w key :
  cursor_ok (this uzbl w) ->
  cursor_ok (this uzbl (fst (key_release uzbl quiet key w))).
Proof.
  intros Hok. unfold key_release.
  generalize (simplified key). clear key. intros key. cbv zeta.
  crunch; arith.
Qed.

Lemma set_keycmd_cursor_ok w keycmd :
  cursor_ok (this uzbl (fst (set_keycmd uzbl react keycmd w))).
Proof. unfold set_keycmd. crunch; arith. Qed.

Lemma clear_keycmd_cursor_ok w :
  cursor_ok (this uzbl (fst (clear_keycmd uzbl quiet w))).
Proof. unfold clear_keycmd. crunch; arith. Qed.

Lemma keycmd_exec_current_cursor_ok w :
  cursor_ok (this uzbl (fst (keycmd_exec_current uzbl quiet w))).
Proof. unfold keycmd_exec_current, clear_keycmd. crunch; arith. Qed.

Lemma set_cursor_pos_cursor_ok w index :
  cursor_ok (this uzbl w) ->
  cursor_ok (this uzbl (fst (set_cursor_pos uzbl react index w))).
Proof. intros Hok. unfold set_cursor_pos. crunch; arith. Qed.

Lemma keycmd_strip_word_cursor_ok w sep :
  cursor_ok (this uzbl w) ->
  cursor_ok (this uzbl (fst (keycmd_strip_word uzbl react sep w))).
Proof.
  intros Hok. unfold keycmd_strip_word.
  assert (Hsep : 1 <= PyStr.len (if PyStr.truthy sep then sep else " ")).
  { destruct sep; unfold PyStr.len; cbn; lia. }
  revert Hsep. generalize (if PyStr.truthy sep then sep else " ").
  clear sep. intros sep Hsep. cbv zeta.
  pose proof (PyStrFacts.len_slice_from _ _ Hok) as Hfrom.
  destruct (get_keylet_run w) as (w1 & E1 & K1 & _).
  unfold bind at 1. rewrite E1. run. keylet_rw. run.
  destruct (PyStr.truthy (cmd (this uzbl w))); run; [|arith].
  keylet_rw. run.
  destruct (PyStrFacts.strip_word_pieces sep
    (PyStr.slice_to (cmd (this uzbl w)) (cursor (this uzbl w))))
    as [(a & b & ->) | (a & ->)]; cbn [hd length Nat.eqb];
    crunch; arith.
Qed.

Lemma keycmd_backspace_cursor_ok w :
  cursor_ok (this uzbl w) ->
  1 <= cursor (this uzbl w) ->
  cursor_ok (this uzbl (fst (keycmd_backspace uzbl react w))).
Proof.
  intros Hok Hpos. unfold keycmd_backspace.
  pose proof (PyStrFacts.len_slice_from _ _ Hok) as Hfrom.
  assert (Hto : PyStr.len (PyStr.slice_to (cmd (this uzbl w))
                                          (cursor (this uzbl w) - 1))
                = cursor (this uzbl w) - 1).
  { apply PyStrFacts.len_slice_to. unfold cursor_ok in Hok. lia. }
  crunch; arith.
Qed.

(** *** Further properties of the handlers *)

(** One step of a handler on a bus without listeners, keeping what the
    dispatcher leaves alone as hypotheses. *)
Ltac step :=
  match goal with
  | |- context [get_keylet uzbl ?W] =>
      destruct (get_keylet_run W) as (? & -> & ? & ? & ?)
  | |- context [uzbl_event uzbl quiet ?n ?b ?W] =>
      rewrite (uzbl_event_quiet n b W)
  | |- context [(if ?b then update_event uzbl quiet true else ?g) ?W] =>
      change ((if b then update_event uzbl quiet true else g) W)
        with (when b (update_event uzbl quiet true) W);
      destruct (when_update_event_quiet b W) as (? & ? & -> & ? & ? & ? & ? & ?)
  | |- context [update_event uzbl quiet ?e ?W] =>
      destruct (update_event_quiet e W) as (? & ? & -> & ? & ? & ? & ? & ?)
  | |- context [update_event uzbl ?r false ?W] =>
      destruct (update_event_false_frame W) as (? & ? & -> & ? & ? & ? & ? & ?)
  | _ => branch
  end.

Ltac fields_rw :=
  repeat match goal with
  | H : ?f (this uzbl ?x) = _ |- context [?f (this uzbl ?x)] => rewrite H
  | H : this uzbl ?x = _ |- context [this uzbl ?x] => rewrite H
  | H : config ?x = _ |- context [config ?x] => rewrite H
  | H : trace ?x = _ |- context [trace ?x] => rewrite H
  end.

Ltac steps := repeat (run; fields_rw; run; step).

Ltac settle := repeat (progress (run; fields_rw)).

(** Every handler keeps the held keys ascending and free of duplicates. *)
Lemma key_press_held_ok w key :
  held_ok (this uzbl w) ->
  held_ok (this uzbl (fst (key_press uzbl quiet key w))).
Proof.
  intros Hok. unfold key_press.
  destruct (PyStr.startswith "Shift_" key); [exact Hok|].
  generalize (simplified key). clear key. intros key. cbv zeta.
  unfold held_ok in *.
  steps; settle;
    repeat match goal with
    | H : negb _ = true |- _ => apply negb_true_iff in H
    end;
    auto using HeldFacts.ascending_sort_append, HeldFacts.ascending_remove.
Qed.

Lemma key_release_held_ok w key :
  held_ok (this uzbl w) ->
  held_ok (this uzbl (fst (key_release uzbl quiet key w))).
Proof.
  intros Hok. unfold key_release.
  generalize (simplified key). clear key. intros key. cbv zeta.
  unfold held_ok in *.
  steps; settle; auto using HeldFacts.ascending_remove.
Qed.

Lemma editing_held_ok w (s : signal) :
  match s with
  | SET_KEYCMD _ | KEYCMD_STRIP_WORD _ | KEYCMD_BACKSPACE
  | KEYCMD_EXEC_CURRENT | SET_CURSOR_POS _ => True
  | _ => False
  end ->
  held (this uzbl (fst (connects uzbl quiet s w))) = held (this uzbl w).
Proof.
  destruct s; cbn [connects]; try tauto; intros _.
  - unfold set_keycmd. steps; settle; reflexivity.
  - unfold keycmd_strip_word. cbv zeta. steps; settle; reflexivity.
  - unfold keycmd_backspace. steps; settle; reflexivity.
  - unfold keycmd_exec_current, clear_keycmd. steps; settle; reflexivity.
  - unfold set_cursor_pos. steps; settle; reflexivity.
Qed.

Lemma connects_held_ok w (s : signal) :
  held_ok (this uzbl w) ->
  held_ok (this uzbl (fst (connects uzbl quiet s w))).
Proof.
  intros Hok. destruct s.
  - cbn. rewrite this_upd. repeat constructor.
  - cbn. unfold this. cbn. rewrite lookup_delete_eq. repeat constructor.
  - by apply key_press_held_ok.
  - by apply key_release_held_ok.
  - unfold held_ok. by rewrite editing_held_ok.
  - unfold held_ok. by rewrite editing_held_ok.
  - unfold held_ok. by rewrite editing_held_ok.
  - unfold held_ok. by rewrite editing_held_ok.
  - unfold held_ok. by rewrite editing_held_ok.
Qed.

Lemma deliver_held_ok l w :
  held_ok (this uzbl w) -> held_ok (this uzbl (deliver uzbl quiet l w)).
Proof.
  revert w. induction l as [|s l IH]; intros w Hok; [exact Hok|].
  cbn [deliver]. apply IH. by apply connects_held_ok.
Qed.

(** Whatever events a new instance has received, its held keys are in
    ascending order and none is listed twice. *)
Theorem held_keys_ascending l :
  held_ok (this uzbl (deliver uzbl quiet l World_init)).
Proof. apply deliver_held_ok. repeat constructor. Qed.

(** *** One instance at a time *)

Section Others.

Variable u : positive.
Hypothesis Hu : u <> uzbl.

Lemma keeps_ret {A} (a : A) : keeps_others u (ret a).
Proof. intros w. reflexivity. Qed.

Lemma keeps_raise {A} e : keeps_others u (@raise A e).
Proof. intros w. reflexivity. Qed.

Lemma keeps_bind {A B} (m : M A) (f : A -> M B) :
  keeps_others u m -> (forall a, keeps_others u (f a)) ->
  keeps_others u (bind m f).
Proof.
  intros Hm Hf w. unfold bind. specialize (Hm w).
  destruct (m w) as [w' [a|e]]; cbn [fst] in *; [|exact Hm].
  by rewrite Hf.
Qed.

Lemma keeps_rd {A} (f : Keylet -> A) : keeps_others u (rd uzbl f).
Proof. intros w. reflexivity. Qed.

Lemma keeps_wr f : keeps_others u (wr uzbl f).
Proof. intros w. cbn. by rewrite lookup_insert_ne. Qed.

Lemma keeps_get_config : keeps_others u get_config.
Proof. intros w. reflexivity. Qed.

Lemma keeps_config_assign key v : keeps_others u (config_assign key v).
Proof. intros w. reflexivity. Qed.

Lemma keeps_uzbl_set key v : keeps_others u (uzbl_set key v).
Proof. intros w. reflexivity. Qed.

Lemma keeps_uzbl_event name b : keeps_others u (uzbl_event uzbl react name b).
Proof.
  intros w. unfold uzbl_event. destruct (react _ _ _). cbn.
  by rewrite lookup_insert_ne.
Qed.

Lemma keeps_registered : keeps_others u (registered uzbl).
Proof. intros w. reflexivity. Qed.

Lemma keeps_add_instance : keeps_others u (add_instance uzbl).
Proof. intros w. cbn. by rewrite lookup_insert_ne. Qed.

Lemma keeps_del_instance : keeps_others u (del_instance uzbl).
Proof. intros w. cbn. by rewrite lookup_delete_ne. Qed.

Ltac keeps :=
  repeat first
    [ apply keeps_ret | apply keeps_raise | apply keeps_rd | apply keeps_wr
    | apply keeps_get_config | apply keeps_config_assign | apply keeps_uzbl_set
    | apply keeps_uzbl_event | apply keeps_registered | apply keeps_add_instance
    | apply keeps_del_instance
    | apply keeps_bind; [|intros]
    | progress unfold when, to_string
    | progress cbv zeta
    | match goal with
      | |- keeps_others _ (if ?b then _ else _) => destruct b
      | |- keeps_others _ (match ?o with Some _ => _ | None => _ end) =>
          destruct o
      end ].

Lemma keeps_get_keylet : keeps_others u (get_keylet uzbl).
Proof. unfold get_keylet. keeps. Qed.

Lemma keeps_update_event e : keeps_others u (update_event uzbl react e).
Proof. unfold update_event. keeps. Qed.

Lemma keeps_clear_keycmd : keeps_others u (clear_keycmd uzbl react).
Proof. unfold clear_keycmd. keeps; apply keeps_get_keylet. Qed.

Lemma keeps_connects s : keeps_others u (connects uzbl react s).
Proof.
  destruct s; cbn [connects].
  - apply keeps_add_instance.
  - apply keeps_del_instance.
  - unfold key_press. keeps;
      first [apply keeps_get_keylet | apply keeps_update_event].
  - unfold key_release. keeps;
      first [apply keeps_get_keylet | apply keeps_update_event].
  - unfold set_keycmd. keeps;
      first [apply keeps_get_keylet | apply keeps_update_event].
  - unfold keycmd_strip_word. keeps;
      first [apply keeps_get_keylet | apply keeps_update_event].
  - unfold keycmd_backspace. keeps;
      first [apply keeps_get_keylet | apply keeps_update_event].
  - unfold keycmd_exec_current. keeps;
      first [apply keeps_get_keylet | apply keeps_clear_keycmd].
  - unfold set_cursor_pos. keeps;
      first [apply keeps_get_keylet | apply keeps_update_event].
Qed.

End Others.

(** Handling an event of one instance never creates, changes or removes
    the Keylet of another instance, whatever the listeners do to the
    Keylet they are handed. *)
Theorem other_instances_untouched (u : positive) (s : signal) w :
  u <> uzbl ->
  UZBLS (fst (connects uzbl react s w)) !! u = UZBLS w !! u.
Proof. intros Hu. by apply keeps_connects. Qed.

(** *** What the dispatcher sends *)

(** Whatever the listeners do, one run of the dispatcher sends at most one
    event, and only with [execute], at most one write, and nothing but
    [MODCMD_UPDATE], [KEYCMD_UPDATE] and writes of the variable [keycmd]. *)
Theorem update_event_effects execute w :
  exists es,
    trace (fst (update_event uzbl react execute w)) = (trace w ++ es)%list
    /\ forallb dispatcher_effect es = true
    /\ (length (List.filter is_event es) <= if execute then 1 else 0)%nat
    /\ (length (List.filter (fun e => negb (is_event e)) es) <= 1)%nat.
Proof.
  unfold update_event, uzbl_event. run.
  repeat (run; match goal with
    | |- context [react ?n ?k ?c] => destruct (react n k c)
    | _ => branch
    end);
  run;
  first
    [ exists []; split; [symmetry; apply app_nil_r | cbn; repeat split; lia]
    | eexists; split; [rewrite <- ?app_assoc; reflexivity
                      | cbn; repeat split; lia] ].
Qed.

(** *** Clearing and executing *)

(** [clear_keycmd] empties the command, recomputes the mode from the keys
    still held, makes sure the configuration holds an empty [keycmd] and
    raises [KEYCMD_CLEAR], once and without the Keylet. *)
Theorem clear_keycmd_result w :
  exists w', clear_keycmd uzbl quiet w = (w', Returns tt)
    /\ cmd (this uzbl w') = ""
    /\ cursor (this uzbl w') = 0
    /\ held (this uzbl w') = held (this uzbl w)
    /\ modcmd (this uzbl w') = mod_held (this uzbl w)
    /\ config w' !! "keycmd" = Some ""
    /\ (forall key, key <> "keycmd" -> config w' !! key = config w !! key)
    /\ trace w' = (trace w ++ [Event "KEYCMD_CLEAR" None])%list.
Proof.
  destruct (get_keylet_run w) as (w1 & E1 & K1 & C1 & T1).
  unfold clear_keycmd. unfold bind at 1. rewrite E1. run.
  rewrite K1, C1. unfold mod_held. run.
  destruct (config w !! "keycmd") as [v|] eqn:Ek;
    [destruct (String.eqb_spec v "") as [-> | Hv]|]; run;
    rewrite !uzbl_event_quiet; run;
    (eexists; split; [reflexivity|]); run; rewrite ?K1, ?T1; run;
    repeat split; try reflexivity; try congruence;
    try apply lookup_insert_eq;
    try (intros key Hk; rewrite ?C1; by rewrite ?lookup_insert_ne).
Qed.

(** [keycmd_exec_current] raises [KEYCMD_EXEC] with the Keylet as it is,
    command included, before it clears the command and raises
    [KEYCMD_CLEAR]. *)
Theorem keycmd_exec_current_result w :
  exists w', keycmd_exec_current uzbl quiet w = (w', Returns tt)
    /\ trace w' = (trace w ++ [Event "KEYCMD_EXEC" (Some (set_cache None (this uzbl w)));
                               Event "KEYCMD_CLEAR" None])%list
    /\ cmd (this uzbl w') = ""
    /\ cursor (this uzbl w') = 0
    /\ held (this uzbl w') = held (this uzbl w).
Proof.
  unfold keycmd_exec_current, clear_keycmd. steps; settle;
    (eexists; split; [reflexivity|]); settle;
    rewrite <- ?app_assoc; repeat split; congruence.
Qed.

(** *** The serialization cache *)

(** Through the accessor the serialization is always that of the current
    fields, however stale the cache was; asking again gives the same string
    and changes nothing. *)
Theorem to_string_after_get_keylet w :
  exists w',
    (get_keylet uzbl ;; to_string uzbl) w
    = (w', Returns (mod_cmd (this uzbl w) +:+ cmd (this uzbl w)))
    /\ to_string uzbl w'
       = (w', Returns (mod_cmd (this uzbl w) +:+ cmd (this uzbl w))).
Proof.
  destruct (get_keylet_run w) as (w1 & E1 & K1 & _).
  unfold bind at 1. rewrite E1. run. rewrite K1. run.
  assert (Hs : mod_cmd (this uzbl w1) +:+ key_cmd (this uzbl w1)
               = mod_cmd (this uzbl w) +:+ cmd (this uzbl w)).
  { rewrite K1. reflexivity. }
  rewrite Hs. eexists. split; [reflexivity|]. run. reflexivity.
Qed.

(** *** The registry *)

(** [INSTANCE_EXIT] forgets the Keylet: the next access starts from a new
    one.  [INSTANCE_START] too replaces whatever Keylet there was. *)
Theorem instance_lifecycle w :
  UZBLS (fst (del_instance uzbl w)) !! uzbl = None
  /\ UZBLS (fst ((del_instance uzbl ;; get_keylet uzbl) w)) !! uzbl
     = Some Keylet_init
  /\ UZBLS (fst (add_instance uzbl w)) !! uzbl = Some Keylet_init.
Proof.
  split; [|split].
  - cbn. apply lookup_delete_eq.
  - unfold bind, del_instance, get_keylet, bind, registered, when.
    cbn [fst snd UZBLS]. rewrite lookup_delete_eq.
    rewrite bool_decide_eq_false_2 by (intros [? ?]; congruence).
    cbn. rewrite lookup_insert_eq, this_upd. reflexivity.
  - cbn. apply lookup_insert_eq.
Qed.

(** *** Setting and editing the command *)

(** [set_keycmd] returns with the text as the command, the cursor at its
    end and modcmd mode off, whatever was held; it changes neither the held
    keys nor the configuration. *)
Theorem set_keycmd_result w keycmd :
  exists w', set_keycmd uzbl react keycmd w = (w', Returns tt)
    /\ cmd (this uzbl w') = keycmd
    /\ cursor (this uzbl w') = PyStr.len keycmd
    /\ modcmd (this uzbl w') = false
    /\ held (this uzbl w') = held (this uzbl w)
    /\ config w' = config w.
Proof.
  destruct (get_keylet_run w) as (w1 & E1 & K1 & C1 & T1).
  unfold set_keycmd. unfold bind at 1. rewrite E1. run.
  match goal with
  | |- context [update_event uzbl react false ?W] =>
      destruct (update_event_false_returns W) as (w' & E & H1 & H2 & H3 & H4 & H5)
  end.
  { run. pose proof (PyStrFacts.len_nonneg keycmd). lia. }
  exists w'. split; [exact E|]. rewrite H1, H2, H3, H4, H5. run.
  rewrite K1, C1. repeat split; reflexivity.
Qed.

(** With keycmd events on, [set_keycmd] with a non-empty text sends one
    thing to the bus: the escaped text followed by the cursor span around a
    space, as the new value of [keycmd]. *)
Theorem set_keycmd_display w keycmd :
  keycmd <> "" ->
  switched_off (config w) "keycmd_events" = false ->
  trace (fst (set_keycmd uzbl react keycmd w))
  = (trace w ++ [SetVar "keycmd"
                   (escape keycmd +:+ "<span @cursor_style>@[ ]@</span>")])%list.
Proof.
  intros Hne Hcfg. destruct (get_keylet_run w) as (w1 & E1 & K1 & C1 & T1).
  unfold set_keycmd. unfold bind at 1. rewrite E1. unfold update_event. run.
  rewrite C1, Hcfg. run. rewrite String.eqb_refl. run.
  destruct keycmd as [|c r]; [congruence|]. cbn [PyStr.truthy]. run.
  rewrite Z.ltb_irrefl. run.
  rewrite SliceFacts.slice_to_full, SliceFacts.slice_from_past, T1.
  reflexivity.
Qed.

(** With a character before the cursor, [keycmd_backspace] returns having
    removed exactly that character: the text after the cursor and the text
    before the removed character are as they were. *)
Theorem keycmd_backspace_deletes_before_cursor w :
  1 <= cursor (this uzbl w) <= PyStr.len (cmd (this uzbl w)) ->
  exists w', keycmd_backspace uzbl react w = (w', Returns tt)
    /\ cursor (this uzbl w') = cursor (this uzbl w) - 1
    /\ PyStr.len (cmd (this uzbl w')) = PyStr.len (cmd (this uzbl w)) - 1
    /\ PyStr.slice_to (cmd (this uzbl w')) (cursor (this uzbl w'))
       = PyStr.slice_to (cmd (this uzbl w)) (cursor (this uzbl w) - 1)
    /\ PyStr.slice_from (cmd (this uzbl w')) (cursor (this uzbl w'))
       = PyStr.slice_from (cmd (this uzbl w)) (cursor (this uzbl w)).
Proof.
  intros Hc. destruct (get_keylet_run w) as (w1 & E1 & K1 & C1 & T1).
  set (k := this uzbl w) in *.
  assert (Hto : PyStr.len (PyStr.slice_to (cmd k) (cursor k - 1)) = cursor k - 1)
    by (apply PyStrFacts.len_slice_to; lia).
  assert (Hfrom : PyStr.len (PyStr.slice_from (cmd k) (cursor k))
                  = PyStr.len (cmd k) - cursor k)
    by (apply PyStrFacts.len_slice_from; lia).
  unfold keycmd_backspace. unfold bind at 1. rewrite E1. run. rewrite K1. run.
  assert (Ht : PyStr.truthy (cmd k) = true) by (apply PyStrFacts.truthy_len; lia).
  rewrite Ht. run. rewrite ?K1. run.
  match goal with
  | |- context [update_event uzbl react false ?W] =>
      destruct (update_event_false_returns W) as (w' & E & H1 & H2 & _)
  end.
  { run. rewrite PyStrFacts.len_append. lia. }
  exists w'. split; [exact E|]. rewrite H1, H2. run.
  rewrite PyStrFacts.len_append, Hfrom.
  set (a := PyStr.slice_to (cmd k) (cursor k - 1)) in *.
  rewrite <- Hto.
  rewrite SliceFacts.slice_to_append, PyStrFacts.slice_from_append.
  repeat split; try reflexivity; lia.
Qed.

(** [keycmd_strip_word] only removes text that ends at the cursor: the new
    command is a beginning of the old text before the cursor, followed by
    the old text from the cursor on.  This holds for every separator, also
    when the assertion stops the function. *)
Theorem strip_word_removes_before_cursor w sep :
  exists kept removed,
    cmd (this uzbl w)
    = kept +:+ removed
      +:+ PyStr.slice_from (cmd (this uzbl w)) (cursor (this uzbl w))
    /\ cmd (this uzbl (fst (keycmd_strip_word uzbl react sep w)))
       = kept +:+ PyStr.slice_from (cmd (this uzbl w)) (cursor (this uzbl w)).
Proof.
  destruct (get_keylet_run w) as (w1 & E1 & K1 & C1 & T1).
  set (k := this uzbl w) in *.
  unfold keycmd_strip_word.
  generalize (if PyStr.truthy sep then sep else " "). clear sep. intros sep.
  cbv zeta. unfold bind at 1. rewrite E1. run. rewrite K1. run.
  destruct (PyStr.truthy (cmd k)) eqn:Ht; run.
  - rewrite ?K1. run.
    destruct (SliceFacts.strip_word_keeps_prefix sep
                (PyStr.slice_to (cmd k) (cursor k))) as [removed Hr].
    set (tmp := if PyStr.contains sep (PyStr.slice_to (cmd k) (cursor k))
                then PyStr.rsplit1 sep
                       (PyStr.rstrip sep (PyStr.slice_to (cmd k) (cursor k)))
                else [""]) in *.
    exists (hd "" tmp +:+ (if (length tmp =? 2)%nat then sep else "")), removed.
    split.
    + rewrite <- (SliceFacts.slices_join (cmd k) (cursor k)) at 1.
      rewrite Hr at 1. by rewrite !PyStrFacts.append_assoc.
    + destruct (negb _); run.
      * by rewrite PyStrFacts.append_assoc.
      * match goal with
        | |- context [update_event uzbl react false ?W] =>
            destruct (update_event_false_frame W) as (w' & o & -> & H1 & _)
        end.
        cbn [fst]. rewrite H1. run. by rewrite PyStrFacts.append_assoc.
  - exists (PyStr.slice_to (cmd k) (cursor k)), "".
    rewrite K1. run. fold k. cbn [String.append].
    split; symmetry; apply SliceFacts.slices_join.
Qed.

(** *** Typing and holding keys *)

Lemma update_event_quiet_returns execute w :
  - PyStr.len (cmd (this uzbl w)) <= cursor (this uzbl w) ->
  exists w', update_event uzbl quiet execute w = (w', Returns tt)
    /\ cmd (this uzbl w') = cmd (this uzbl w)
    /\ cursor (this uzbl w') = cursor (this uzbl w)
    /\ held (this uzbl w') = held (this uzbl w)
    /\ modcmd (this uzbl w') = modcmd (this uzbl w)
    /\ config w' = config w.
Proof.
  intros Hc. unfold update_event. run.
  repeat (run; rewrite ?uzbl_event_quiet; run;
          match goal with
          | |- context [PyStr.getitem ?s ?i] =>
              let c := fresh in let Hg := fresh in
              destruct (PyStrFacts.getitem_in_range s i) as [c Hg];
              [lia | rewrite Hg]
          | |- context [?a <? ?b] => destruct (Z.ltb_spec a b)
          | _ => branch
          end);
  run; eexists; (split; [reflexivity|]); run; repeat split; congruence.
Qed.

Lemma events_on (c : gmap string string) :
  switched_off c "keycmd_events" = false ->
  match c !! "keycmd_events" with
  | None => true
  | Some v => String.eqb v "1"
  end = true.
Proof.
  unfold switched_off. destruct (c !! "keycmd_events"); [|reflexivity].
  by destruct (String.eqb s "1").
Qed.

Lemma events_off (c : gmap string string) :
  switched_off c "keycmd_events" = true ->
  match c !! "keycmd_events" with
  | None => true
  | Some v => String.eqb v "1"
  end = false.
Proof.
  unfold switched_off. destruct (c !! "keycmd_events"); [|discriminate].
  by destruct (String.eqb s "1").
Qed.

Lemma short_not_Space key :
  (1 <? PyStr.len key) = false -> String.eqb key "Space" = false.
Proof.
  intros H. destruct (String.eqb_spec key "Space") as [-> |]; [|reflexivity].
  vm_compute in H. discriminate.
Qed.

(** Outside modcmd mode and with keycmd events on, a key of one character
    is put into the command at the cursor and the cursor moves behind it;
    nothing is held. *)
Theorem key_press_inserts_character w key :
  String.length key = 1%nat ->
  modcmd (this uzbl w) = false ->
  switched_off (config w) "keycmd_events" = false ->
  cursor_ok (this uzbl w) ->
  exists w', key_press uzbl quiet key w = (w', Returns tt)
    /\ cmd (this uzbl w')
       = PyStr.slice_to (cmd (this uzbl w)) (cursor (this uzbl w)) +:+ key
         +:+ PyStr.slice_from (cmd (this uzbl w)) (cursor (this uzbl w))
    /\ cursor (this uzbl w') = cursor (this uzbl w) + 1
    /\ held (this uzbl w') = held (this uzbl w)
    /\ modcmd (this uzbl w') = false.
Proof.
  intros Hl Hm Hcfg Hok. unfold cursor_ok in Hok.
  destruct (get_keylet_run w) as (w1 & E1 & K1 & C1 & T1).
  assert (Hlen : PyStr.len key = 1) by (unfold PyStr.len; lia).
  unfold key_press, PyStr.startswith.
  rewrite SliceFacts.one_char_no_prefix by (cbn; lia || exact Hl).
  assert (Hsimp : simplified key = key)
    by (unfold simplified; rewrite Hlen; reflexivity).
  rewrite Hsimp. cbv zeta.
  unfold bind at 1. rewrite E1. run. rewrite K1. run. rewrite Hm. run.
  rewrite short_not_Space by (rewrite Hlen; reflexivity).
  rewrite andb_false_r, Hlen, Z.ltb_irrefl, Z.eqb_refl. run.
  rewrite C1, (events_on _ Hcfg). run. rewrite ?K1. run. rewrite Hm. run.
  pose proof (PyStrFacts.len_slice_to _ _ Hok) as Hto.
  pose proof (PyStrFacts.len_slice_from _ _ Hok) as Hfrom.
  match goal with
  | |- context [update_event uzbl quiet true ?W] =>
      destruct (update_event_quiet_returns true W) as (w' & E & H1 & H2 & H3 & H4 & _)
  end.
  { run. rewrite !PyStrFacts.len_append. lia. }
  exists w'. split; [exact E|]. rewrite H1, H2, H3, H4. run.
  rewrite K1. run. repeat split; congruence.
Qed.

(** With keycmd events switched off, a key of one character outside modcmd
    mode is not recorded: the command is emptied, and nothing at all is
    sent to the bus, not even the new, empty value of [keycmd]. *)
Theorem key_press_with_keycmd_events_off w key :
  PyStr.startswith "Shift_" key = false ->
  (1 <? PyStr.len (simplified key)) = false ->
  modcmd (this uzbl w) = false ->
  switched_off (config w) "keycmd_events" = true ->
  exists w', key_press uzbl react key w = (w', Returns tt)
    /\ cmd (this uzbl w') = ""
    /\ cursor (this uzbl w')
       = (if PyStr.truthy (cmd (this uzbl w)) then 0 else cursor (this uzbl w))
    /\ held (this uzbl w') = held (this uzbl w)
    /\ modcmd (this uzbl w') = false
    /\ trace w' = trace w
    /\ config w' = config w.
Proof.
  intros Hs Hl Hm Hcfg.
  destruct (get_keylet_run w) as (w1 & E1 & K1 & C1 & T1).
  unfold key_press. rewrite Hs. cbv zeta.
  unfold bind at 1. rewrite E1. unfold update_event. run. rewrite K1. run.
  rewrite Hm, (short_not_Space _ Hl), andb_false_r, Hl. run.
  rewrite C1, (events_off _ Hcfg). run.
  destruct (PyStr.truthy (cmd (this uzbl w))) eqn:Ht;
    repeat (progress (run; rewrite ?K1, ?Hm, ?C1, ?Hcfg));
    (eexists; split; [reflexivity|]);
    repeat (progress (run; rewrite ?K1, ?Hm, ?C1, ?Hcfg));
    repeat split; try congruence.
  destruct (cmd (this uzbl w)); [reflexivity | discriminate].
Qed.

Lemma released_alone key : released key [key] = key.
Proof.
  unfold released, PyStr.inb. cbn [existsb orb].
  destruct (String.eqb_spec key "Shift") as [-> | H1]; [reflexivity|].
  destruct (String.eqb_spec key "Tab") as [-> | H2]; [reflexivity|].
  destruct (String.eqb_spec key "Alt") as [-> | H3]; [reflexivity|].
  reflexivity.
Qed.

(** Pressing and releasing one modifier key while nothing else is held
    brings the Keylet back: nothing held, modcmd mode off, command and
    cursor as before the press. *)
Theorem press_release_round_trip w key :
  PyStr.startswith "Shift_" key = false ->
  (1 <? PyStr.len (simplified key)) = true ->
  simplified key <> "Space" ->
  held (this uzbl w) = [] ->
  held (this uzbl (deliver uzbl quiet [KEY_PRESS key; KEY_RELEASE key] w)) = []
  /\ modcmd (this uzbl (deliver uzbl quiet [KEY_PRESS key; KEY_RELEASE key] w))
     = false
  /\ cmd (this uzbl (deliver uzbl quiet [KEY_PRESS key; KEY_RELEASE key] w))
     = cmd (this uzbl w)
  /\ cursor (this uzbl (deliver uzbl quiet [KEY_PRESS key; KEY_RELEASE key] w))
     = cursor (this uzbl w).
Proof.
  intros Hs Hl Hn Hh. apply String.eqb_neq in Hn.
  cbn [deliver connects].
  assert (Hpress : exists w2 o, key_press uzbl quiet key w = (w2, o)
            /\ held (this uzbl w2) = [simplified key]
            /\ cmd (this uzbl w2) = cmd (this uzbl w)
            /\ cursor (this uzbl w2) = cursor (this uzbl w)).
  { destruct (get_keylet_run w) as (w1 & E1 & K1 & C1 & T1).
    unfold key_press. rewrite Hs. cbv zeta.
    unfold bind at 1. rewrite E1.
    repeat (progress (run; rewrite ?K1, ?Hh, ?Hn, ?Hl, ?andb_false_r;
                      cbn [PyStr.inb existsb negb])).
    match goal with
    | |- context [update_event uzbl quiet true ?W] =>
        destruct (update_event_quiet true W) as (w2 & o & -> & H1 & H2 & H3 & _)
    end.
    exists w2, o. split; [reflexivity|]. rewrite H1, H2, H3.
    repeat (progress (run; rewrite ?K1, ?Hh)). repeat split; reflexivity. }
  destruct Hpress as (w2 & o & -> & Hh2 & Hc2 & Hp2). cbn [fst].
  assert (Hrel : exists w4 o4, key_release uzbl quiet key w2 = (w4, o4)
            /\ held (this uzbl w4) = []
            /\ modcmd (this uzbl w4) = false
            /\ cmd (this uzbl w4) = cmd (this uzbl w2)
            /\ cursor (this uzbl w4) = cursor (this uzbl w2)).
  { destruct (get_keylet_run w2) as (w3 & E3 & K3 & C3 & T3).
    unfold key_release. cbv zeta. unfold bind at 1. rewrite E3.
    unfold mod_held.
    repeat (progress (run; rewrite ?K3, ?Hh2, ?released_alone, ?String.eqb_refl;
                      cbn [PyStr.inb PyStr.remove existsb orb])).
    match goal with
    | |- context [update_event uzbl quiet true ?W] =>
        destruct (update_event_quiet true W)
          as (w4 & o4 & -> & H1 & H2 & H3 & H4 & _)
    end.
    exists w4, o4. split; [reflexivity|]. rewrite H1, H2, H3, H4.
    repeat (progress (run; rewrite ?K3, ?Hh2, ?released_alone, ?String.eqb_refl;
                      cbn [PyStr.inb PyStr.remove existsb orb])).
    repeat split; reflexivity. }
  destruct Hrel as (w4 & o4 & -> & R1 & R2 & R3 & R4). cbn [fst].
  repeat split; congruence.
Qed.

(** Releasing [Tab] or a shift key while [Shift-Tab] is held releases
    [Shift-Tab]. *)
Theorem key_release_resolves_shift_tab w key :
  In key ["Tab"; "Shift"; "Shift_L"; "Shift_R"] ->
  PyStr.inb "Shift-Tab" (held (this uzbl w)) = true ->
  held (this uzbl (fst (key_release uzbl quiet key w)))
  = PyStr.remove "Shift-Tab" (held (this uzbl w)).
Proof.
  intros Hk Hst.
  assert (Hr : released (simplified key) (held (this uzbl w)) = "Shift-Tab").
  { unfold released. rewrite Hst.
    destruct Hk as [<- | [<- | [<- | [<- | []]]]]; reflexivity. }
  destruct (get_keylet_run w) as (w1 & E1 & K1 & C1 & T1).
  unfold key_release. cbv zeta. unfold bind at 1. rewrite E1. run.
  rewrite K1. run. rewrite Hr, Hst. run. rewrite ?K1. run.
  steps; settle; rewrite ?K1; run; reflexivity.
Qed.

(** [set_cursor_pos] either stops with [int]'s [ValueError], the cursor
    untouched, or returns with the cursor inside the command, wherever the
    cursor was before. *)
Theorem set_cursor_pos_restores_bound w index :
  match set_cursor_pos uzbl react index w with
  | (w', Returns _) => cursor_ok (this uzbl w')
  | (w', Raises e) =>
      e = ValueError /\ cursor (this uzbl w') = cursor (this uzbl w)
  end.
Proof.
  destruct (get_keylet_run w) as (w1 & E1 & K1 & C1 & T1).
  assert (Hk : forall c,
    match (let cursor := if c <? 0 then 0 else c in
           k_cmd <- rd uzbl cmd ;;
           let cursor :=
             if cursor >? PyStr.len k_cmd then PyStr.len k_cmd else cursor in
           wr uzbl (set_cursor cursor) ;;
           update_event uzbl react false) w1 with
    | (w', Returns _) => cursor_ok (this uzbl w')
    | (w', Raises e) =>
        e = ValueError /\ cursor (this uzbl w') = cursor (this uzbl w)
    end).
  { intros c.
    destruct (set_cursor_pos_clamps w1 c) as (w' & -> & H1 & H2 & _).
    unfold cursor_ok. rewrite H1, H2.
    pose proof (PyStrFacts.len_nonneg (cmd (this uzbl w1))). lia. }
  unfold set_cursor_pos. unfold bind at 1. rewrite E1. unfold bind at 1.
  destruct (String.eqb index "-").
  { unfold bind at 1, rd at 1, ret at 1. apply Hk. }
  destruct (String.eqb index "+").
  { unfold bind at 1, rd at 1, ret at 1. apply Hk. }
  destruct (PyStr.int (PyStr.strip index)) as [n|].
  - destruct (n <? 0).
    + unfold bind at 1, rd at 1, ret at 1. apply Hk.
    + unfold ret at 1. apply Hk.
  - unfold raise. rewrite K1. split; reflexivity.
Qed.

End Facts.

(** ** [escape] *)

(** C5: [escape] turns the five characters [a@b\c] into the eleven
    characters [@[a\@b\\c]@], and the empty string into the empty string. *)
Theorem escape_examples :
  String.length "a@b\c" = 5%nat
  /\ escape "a@b\c" = "@[a\@b\\c]@"
  /\ String.length (escape "a@b\c") = 11%nat
  /\ escape "" = "".
Proof. repeat split. Qed.

(** ** Sample runs *)

(** C1: after pressing [Control], pressing [a], releasing [Control] and
    releasing [a], no key is held and modcmd mode is off, but [MODCMD_EXEC]
    has not been raised at all: when [Control] goes, only [a] is left, the
    mode is recomputed to off, and the event is raised only if it is on. *)
Theorem modifier_flow_raises_no_modcmd_exec :
  held (this 1%positive modifier_flow) = []
  /\ modcmd (this 1%positive modifier_flow) = false
  /\ raised "MODCMD_EXEC" (trace modifier_flow) = 0%nat.
Proof. vm_compute. repeat split. Qed.

(** C2: with the command [ab] and the cursor at 0, a state inside the
    bound, [keycmd_backspace] returns with the command [aab] and the cursor
    at -1, outside the bound. *)
Theorem backspace_at_start_breaks_cursor_bound :
  cursor_ok (this 1%positive ab_cursor_at_start)
  /\ snd (keycmd_backspace 1%positive quiet ab_cursor_at_start) = Returns tt
  /\ cmd (this 1%positive
            (fst (keycmd_backspace 1%positive quiet ab_cursor_at_start))) = "aab"
  /\ cursor (this 1%positive
               (fst (keycmd_backspace 1%positive quiet ab_cursor_at_start))) = -1
  /\ ~ cursor_ok (this 1%positive
                    (fst (keycmd_backspace 1%positive quiet ab_cursor_at_start))).
Proof.
  unfold cursor_ok. vm_compute.
  repeat split; try discriminate. intros [H _]. apply H. reflexivity.
Qed.

(** C3: with the command [a--b], the cursor at its end and the separator
    [--], [keycmd_strip_word] stops at its assertion: the command has become
    [a--] with the cursor at 2, one character after the cursor where there
    was none. *)
Theorem strip_word_long_separator_fails_assertion :
  cmd (this 1%positive typed_a_dash_dash_b) = "a--b"
  /\ cursor (this 1%positive typed_a_dash_dash_b) = 4
  /\ snd (keycmd_strip_word 1%positive quiet "--" typed_a_dash_dash_b)
     = Raises AssertionError
  /\ cmd (this 1%positive
            (fst (keycmd_strip_word 1%positive quiet "--" typed_a_dash_dash_b)))
     = "a--"
  /\ cursor (this 1%positive
               (fst (keycmd_strip_word 1%positive quiet "--" typed_a_dash_dash_b)))
     = 2
  /\ PyStr.len (cmd (this 1%positive typed_a_dash_dash_b))
     - cursor (this 1%positive typed_a_dash_dash_b) = 0
  /\ PyStr.len (cmd (this 1%positive
            (fst (keycmd_strip_word 1%positive quiet "--" typed_a_dash_dash_b))))
     - cursor (this 1%positive
            (fst (keycmd_strip_word 1%positive quiet "--" typed_a_dash_dash_b)))
     = 1.
Proof. vm_compute. repeat split. Qed.

(** C4, counterexample: outside modcmd mode and with [keycmd_events] set
    to ["0"], the dispatcher run with [execute] raises no [KEYCMD_UPDATE]. *)
Lemma keycmd_events_off_raises_nothing :
  modcmd (this 1%positive keycmd_events_off) = false
  /\ raised "KEYCMD_UPDATE"
       (trace (fst (update_event 1%positive quiet true keycmd_events_off)))
     = 0%nat.
Proof. vm_compute. split; reflexivity. Qed.

(** C10, counterexample: while [Control] is held the command is empty and
    the Keylet carries its cached serialization; [keycmd_strip_word]
    returns a Keylet that differs from it. *)
Lemma empty_strip_word_invalidates_cache :
  cmd (this 1%positive holding_ctrl) = ""
  /\ _to_string (this 1%positive holding_ctrl) = Some "<Ctrl>"
  /\ this 1%positive (fst (keycmd_strip_word 1%positive quiet " " holding_ctrl))
     <> this 1%positive holding_ctrl.
Proof. vm_compute. repeat split. discriminate. Qed.

(** C10 at a sample input: the Keylet of [holding_ctrl]. *)
Lemma strip_word_empty_command_witness :
  exists w', keycmd_strip_word 1%positive quiet " " holding_ctrl = (w', Returns tt)
    /\ this 1%positive w' = set_cache None (this 1%positive holding_ctrl)
    /\ config w' = config holding_ctrl
    /\ trace w' = trace holding_ctrl.
Proof.
  apply (strip_word_empty_command 1%positive quiet holding_ctrl " ").
  reflexivity.
Defined.

(** C6 at the sample input of the specification: ["-5"] on a command of
    three characters resolves to [3 + (-5) + 1 = -1] and is clamped to 0. *)
Lemma set_cursor_pos_minus_five :
  exists w', set_cursor_pos 1%positive quiet "-5" typed_abc = (w', Returns tt)
    /\ cursor (this 1%positive w') = 0.
Proof.
  destruct (set_cursor_pos_spec 1%positive quiet typed_abc "-5" (-1))
    as (w' & E & Hc & _).
  - exact (target_from_end (this 1%positive typed_abc) "-5" (-5) eq_refl eq_refl).
  - exists w'. split; [exact E | exact Hc].
Defined.

(** C7 at a sample input: the specification ["abc"]. *)
Lemma set_cursor_pos_unparseable_witness :
  exists w', set_cursor_pos 1%positive quiet "abc" typed_abc = (w', Raises ValueError)
    /\ cmd (this 1%positive w') = cmd (this 1%positive typed_abc)
    /\ cursor (this 1%positive w') = cursor (this 1%positive typed_abc)
    /\ held (this 1%positive w') = held (this 1%positive typed_abc)
    /\ modcmd (this 1%positive w') = modcmd (this 1%positive typed_abc)
    /\ config w' = config typed_abc
    /\ trace w' = trace typed_abc.
Proof.
  apply (set_cursor_pos_unparseable 1%positive quiet typed_abc "abc").
  - discriminate.
  - discriminate.
  - reflexivity.
Defined.


(** C9 at a sample input: [a] is released while only [Control] is held. *)
Lemma key_release_not_held_witness :
  exists w', key_release 1%positive quiet "a" holding_ctrl = (w', Returns tt)
    /\ cmd (this 1%positive w') = cmd (this 1%positive holding_ctrl)
    /\ cursor (this 1%positive w') = cursor (this 1%positive holding_ctrl)
    /\ held (this 1%positive w') = held (this 1%positive holding_ctrl)
    /\ modcmd (this 1%positive w') = modcmd (this 1%positive holding_ctrl)
    /\ config w' = config holding_ctrl
    /\ trace w' = trace holding_ctrl.
Proof.
  apply (key_release_not_held 1%positive quiet holding_ctrl "a").
  reflexivity.
Defined.

(** ** The cursor bound, event by event *)

(** Every event but [KEYCMD_BACKSPACE] keeps the cursor inside the
    command. *)
Theorem connects_cursor_ok (uzbl : positive) w (s : signal) :
  s <> KEYCMD_BACKSPACE ->
  cursor_ok (this uzbl w) ->
  cursor_ok (this uzbl (fst (connects uzbl quiet s w))).
Proof.
  intros Hs Hok. destruct s; cbn [connects].
  - cbn. rewrite this_upd. unfold cursor_ok, PyStr.len. simpl. lia.
  - cbn. unfold this. cbn. rewrite lookup_delete_eq.
    unfold cursor_ok, PyStr.len. simpl. lia.
  - by apply key_press_cursor_ok.
  - by apply key_release_cursor_ok.
  - apply (set_keycmd_cursor_ok uzbl quiet).
  - by apply (keycmd_strip_word_cursor_ok uzbl quiet).
  - congruence.
  - apply keycmd_exec_current_cursor_ok.
  - by apply (set_cursor_pos_cursor_ok uzbl quiet).
Qed.

(** ** Sample inputs of the further properties *)

Lemma escape_single_pass_witness :
  escape "a@b" = "@[" +:+ escape_chars "a@b" +:+ "]@".
Proof. apply (escape_single_pass "a@b"). discriminate. Defined.

Lemma escape_injective_witness : "a@b" = "a@b".
Proof. apply (escape_injective "a@b" "a@b"). reflexivity. Defined.

Lemma connects_cursor_ok_witness :
  cursor_ok (this 1%positive
               (fst (connects 1%positive quiet (KEY_PRESS "d") typed_abc))).
Proof.
  apply (connects_cursor_ok 1%positive typed_abc (KEY_PRESS "d")).
  - discriminate.
  - unfold cursor_ok. vm_compute. split; discriminate.
Defined.

Lemma other_instances_untouched_witness :
  UZBLS (fst (connects 1%positive quiet (KEY_PRESS "a") typed_abc)) !! 2%positive
  = UZBLS typed_abc !! 2%positive.
Proof.
  apply (other_instances_untouched 1%positive quiet 2%positive
           (KEY_PRESS "a") typed_abc).
  discriminate.
Defined.

Lemma set_keycmd_display_witness :
  trace (fst (set_keycmd 1%positive quiet "abc" World_init))
  = (trace World_init
     ++ [SetVar "keycmd" (escape "abc" +:+ "<span @cursor_style>@[ ]@</span>")])%list.
Proof.
  apply (set_keycmd_display 1%positive quiet World_init "abc").
  - discriminate.
  - reflexivity.
Defined.

Lemma keycmd_backspace_witness :
  exists w', keycmd_backspace 1%positive quiet typed_abc = (w', Returns tt)
    /\ cursor (this 1%positive w') = 2
    /\ PyStr.len (cmd (this 1%positive w')) = 2.
Proof.
  destruct (keycmd_backspace_deletes_before_cursor 1%positive quiet typed_abc)
    as (w' & E & Hc & Hl & _).
  - vm_compute. split; discriminate.
  - exists w'. split; [exact E|]. split; [exact Hc | exact Hl].
Defined.

Lemma key_press_inserts_character_witness :
  exists w', key_press 1%positive quiet "d" typed_abc = (w', Returns tt)
    /\ cursor (this 1%positive w') = 4
    /\ modcmd (this 1%positive w') = false.
Proof.
  destruct (key_press_inserts_character 1%positive typed_abc "d")
    as (w' & E & _ & Hc & _ & Hm).
  - reflexivity.
  - reflexivity.
  - reflexivity.
  - unfold cursor_ok. vm_compute. split; discriminate.
  - exists w'. split; [exact E|]. split; [exact Hc | exact Hm].
Defined.

Lemma key_press_with_keycmd_events_off_witness :
  exists w', key_press 1%positive quiet "a" keycmd_events_off = (w', Returns tt)
    /\ cmd (this 1%positive w') = ""
    /\ trace w' = trace keycmd_events_off.
Proof.
  destruct (key_press_with_keycmd_events_off 1%positive quiet keycmd_events_off "a")
    as (w' & E & Hc & _ & _ & _ & Ht & _).
  - reflexivity.
  - reflexivity.
  - reflexivity.
  - reflexivity.
  - exists w'. split; [exact E|]. split; [exact Hc | exact Ht].
Defined.

Lemma press_release_round_trip_witness :
  held (this 1%positive
          (deliver 1%positive quiet [KEY_PRESS "Control"; KEY_RELEASE "Control"]
             typed_abc)) = []
  /\ modcmd (this 1%positive
          (deliver 1%positive quiet [KEY_PRESS "Control"; KEY_RELEASE "Control"]
             typed_abc)) = false.
Proof.
  destruct (press_release_round_trip 1%positive typed_abc "Control")
    as (Hh & Hm & _).
  - reflexivity.
  - reflexivity.
  - discriminate.
  - reflexivity.
  - split; [exact Hh | exact Hm].
Defined.

Lemma key_release_resolves_shift_tab_witness :
  held (this 1%positive
          (fst (key_release 1%positive quiet "Tab"
                  (after_events [KEY_PRESS "ISO_Left_Tab"]))))
  = PyStr.remove "Shift-Tab"
      (held (this 1%positive (after_events [KEY_PRESS "ISO_Left_Tab"]))).
Proof.
  apply (key_release_resolves_shift_tab 1%positive
           (after_events [KEY_PRESS "ISO_Left_Tab"]) "Tab").
  - left. reflexivity.
  - reflexivity.
Defined.

Lemma strip_word_one_char_separator_witness :
  exists w', keycmd_strip_word 1%positive quiet " "
               (after_events [SET_KEYCMD "foo bar"]) = (w', Returns tt)
    /\ cursor_ok (this 1%positive w').
Proof.
  destruct (strip_word_one_char_separator 1%positive quiet
              (after_events [SET_KEYCMD "foo bar"]) " ")
    as (w' & E & _ & _ & Hok).
  - reflexivity.
  - unfold cursor_ok. vm_compute. split; discriminate.
  - exists w'. split; [exact E | exact Hok].
Defined.
